(** * movie-recommender: a shallow embedding of [movie-recommender.py]

    The script turns an optional free-text request into filters through a
    language model ([gpt_parse_prompt]), merges them with the widgets of the
    page, queries the catalogue provider ([discover_movies]) and relaxes the
    filters step by step when nothing is found (the button handler).

    Python values are embedded as [pyval], exceptions as [exn], the network
    and the model endpoint as oracles acting on an abstract world, and the
    page as a log of events. *)

From Stdlib Require Import List String Ascii ZArith QArith Bool Arith Lia.
From Stdlib Require Import Permutation Sorted DecimalString.
Import ListNotations.

#[local] Set Warnings "-register-all".
Local Close Scope Q_scope.
Local Open Scope string_scope.
Local Open Scope list_scope.

(* ================================================================= *)
(** ** Python values, exceptions *)

(** The values the script handles: what [json.loads] produces and what the
    widgets yield.  A [float] is kept as the rational it denotes; a [dict]
    with string keys is an association list in insertion order whose keys
    are pairwise distinct (see [dict_set]). *)
Inductive pyval : Type :=
| PNone
| PBool (b : bool)
| PInt (z : Z)
| PFloat (q : Q)
| PStr (s : string)
| PList (l : list pyval)
| PDict (d : list (string * pyval)).

Inductive exn : Type :=
| NameError (name : string)
| AttributeError
| TypeError
| KeyError
| IndexError
| ValueError
| JSONDecodeError
| ProviderError (msg : string).

(** Outcome of evaluating a Python expression or statement. *)
Inductive result (A : Type) : Type :=
| Ok (a : A)
| Raise (e : exn).
Arguments Ok {A} a.
Arguments Raise {A} e.

Definition rbind {A B} (r : result A) (k : A -> result B) : result B :=
  match r with
  | Ok a => k a
  | Raise e => Raise e
  end.

(** Python's truth value of an object ([bool(v)]). *)
Definition truthy (v : pyval) : bool :=
  match v with
  | PNone => false
  | PBool b => b
  | PInt z => negb (z =? 0)%Z
  | PFloat q => negb (Qeq_bool q 0)
  | PStr s => negb (String.eqb s EmptyString)
  | PList l => negb (Nat.eqb (List.length l) 0)
  | PDict d => negb (Nat.eqb (List.length d) 0)
  end.

(** [v is not None]. *)
Definition is_not_None (v : pyval) : bool :=
  match v with
  | PNone => false
  | _ => true
  end.

(* ----------------------------------------------------------------- *)
(** *** Dictionaries *)

Section Dict.
Context {K V : Type} (eqb : K -> K -> bool).

(** [d.get(k)] as an option, [None] when the key is absent. *)
Fixpoint dict_find (k : K) (d : list (K * V)) : option V :=
  match d with
  | [] => None
  | (k', v) :: d' => if eqb k k' then Some v else dict_find k d'
  end.

(** [d[k] = v]: the value of an existing key is replaced in place, a new
    key goes to the end. *)
Fixpoint dict_set (k : K) (v : V) (d : list (K * V)) : list (K * V) :=
  match d with
  | [] => [(k, v)]
  | (k', v') :: d' =>
      if eqb k k' then (k', v) :: d' else (k', v') :: dict_set k v d'
  end.

(** A dict comprehension [{k: v for ...}] over the pairs, in order. *)
Definition dict_of_items (items : list (K * V)) : list (K * V) :=
  fold_left (fun d kv => dict_set (fst kv) (snd kv) d) items [].

Definition dict_mem (k : K) (d : list (K * V)) : bool :=
  match dict_find k d with
  | Some _ => true
  | None => false
  end.
End Dict.

(** The value a dict holds for a key, [None] when it has none. *)
Definition dget (d : list (string * pyval)) (key : string) : pyval :=
  match dict_find String.eqb key d with
  | Some x => x
  | None => PNone
  end.

(** [parsed.get(key)]; an object that is no dict has no [get]. *)
Definition py_get (v : pyval) (key : string) : result pyval :=
  match v with
  | PDict d => Ok (dget d key)
  | _ => Raise AttributeError
  end.

(** [v[key]] for a string key. *)
Definition py_getitem (v : pyval) (key : string) : result pyval :=
  match v with
  | PDict d =>
      match dict_find String.eqb key d with
      | Some x => Ok x
      | None => Raise KeyError
      end
  | _ => Raise TypeError
  end.

(** [v[0]].  A dict decoded from JSON has string keys only, so the integer
    key 0 is never found. *)
Definition py_getitem0 (v : pyval) : result pyval :=
  match v with
  | PList (x :: _) => Ok x
  | PList [] => Raise IndexError
  | PStr (String c _) => Ok (PStr (String c EmptyString))
  | PStr EmptyString => Raise IndexError
  | PDict _ => Raise KeyError
  | _ => Raise TypeError
  end.

(* ================================================================= *)
(** ** Strings *)

(** Characters are code points below 256. *)
Definition dq : string := String (ascii_of_nat 34) EmptyString.
Definition nl : string := String (ascii_of_nat 10) EmptyString.
Definition quoted (s : string) : string := dq ++ s ++ dq.

(** [str.isspace] on one character. *)
Definition is_space (c : ascii) : bool :=
  let n := nat_of_ascii c in
  (((9 <=? n) && (n <=? 13)) || ((28 <=? n) && (n <=? 32))
  || (n =? 133) || (n =? 160))%nat.

(** The characters of a class removed at the start, at the end. *)
Fixpoint lstrip_with (p : ascii -> bool) (s : string) : string :=
  match s with
  | EmptyString => EmptyString
  | String c r => if p c then lstrip_with p r else s
  end.

Fixpoint rstrip_with (p : ascii -> bool) (s : string) : string :=
  match s with
  | EmptyString => EmptyString
  | String c r =>
      match rstrip_with p r with
      | EmptyString => if p c then EmptyString else String c EmptyString
      | r' => String c r'
      end
  end.

(** [s.strip()]. *)
Definition strip (s : string) : string :=
  lstrip_with is_space (rstrip_with is_space s).

(** [sub in s] for strings. *)
Fixpoint contains (sub s : string) : bool :=
  prefix sub s ||
  match s with
  | EmptyString => false
  | String _ r => contains sub r
  end.

(** [s.split(sep)] for a non-empty separator: the occurrences of [sep] are
    found from left to right and do not overlap.  [skip] counts the
    characters of a separator still to pass over, [cur] is the piece being
    read. *)
Fixpoint split_go (sep s : string) (skip : nat) (cur : string) : list string :=
  match s with
  | EmptyString => [cur]
  | String c r =>
      match skip with
      | S k => split_go sep r k cur
      | O =>
          if prefix sep s
          then cur :: split_go sep r (String.length sep - 1) EmptyString
          else split_go sep r 0 (cur ++ String c EmptyString)
      end
  end.

Definition split (sep s : string) : list string := split_go sep s 0 EmptyString.

(** [s[:n]]. *)
Definition slice_to (n : nat) (s : string) : string := substring 0 n s.

(** [sep.join(l)]. *)
Definition join (sep : string) (l : list string) : string := String.concat sep l.

(** [str(z)] for an integer. *)
Definition str_of_int (z : Z) : string := NilZero.string_of_int (Z.to_int z).

(* ================================================================= *)
(** ** Library functions: [int] and [json.loads]

    The program is parametric in these two (see [Externals]); the
    definitions below are the instances used to run it: decimal literals
    and the JSON grammar over ASCII text. *)

Definition is_digit (c : ascii) : bool :=
  let n := nat_of_ascii c in ((48 <=? n) && (n <=? 57))%nat.

Definition digit_val (c : ascii) : Z := Z.of_nat (nat_of_ascii c - 48).

(** Decimal digits, single underscores allowed between two digits. *)
Fixpoint int_digits (s : string) (acc : Z) (after_digit : bool) : option Z :=
  match s with
  | EmptyString => if after_digit then Some acc else None
  | String c r =>
      if is_digit c then int_digits r (10 * acc + digit_val c)%Z true
      else if Ascii.eqb c "_" && after_digit then int_digits r acc false
      else None
  end.

Definition is_c_space (c : ascii) : bool :=
  let n := nat_of_ascii c in (((9 <=? n) && (n <=? 13)) || (n =? 32))%nat.

(** [int(s)] on ASCII text: blanks around, a sign, decimal digits. *)
Definition int_literal (s : string) : result Z :=
  let body := lstrip_with is_c_space (rstrip_with is_c_space s) in
  let signed :=
    match body with
    | String "-" r => option_map Z.opp (int_digits r 0%Z false)
    | String "+" r => int_digits r 0%Z false
    | _ => int_digits body 0%Z false
    end in
  match signed with
  | Some z => Ok z
  | None => Raise ValueError
  end.

(* ----------------------------------------------------------------- *)
(** *** JSON *)

Definition is_json_ws (c : ascii) : bool :=
  let n := nat_of_ascii c in ((n =? 32) || (n =? 9) || (n =? 10) || (n =? 13))%nat.

Definition skip_ws (s : string) : string := lstrip_with is_json_ws s.

(** A run of digits: its value continued from [acc], how many there were,
    and the rest of the text. *)
Fixpoint scan_digits (s : string) (acc : Z) (n : nat) : Z * nat * string :=
  match s with
  | String c r => if is_digit c then scan_digits r (10 * acc + digit_val c)%Z (S n)
                  else (acc, n, s)
  | EmptyString => (acc, n, s)
  end.

(** The rational [m * 10 ^ e]. *)
Definition decimal (m e : Z) : Q :=
  if (0 <=? e)%Z then inject_Z (m * 10 ^ e)
  else Qmake m (Z.to_pos (10 ^ (- e))).

(** An optional fraction [.ddd]: mantissa and number of digits read. *)
Definition scan_frac (s : string) (m : Z) : option (Z * nat * string) :=
  match s with
  | String "." r =>
      match scan_digits r m 0 with
      | (_, O, _) => None
      | res => Some res
      end
  | _ => None
  end.

(** An optional exponent [e+dd]. *)
Definition scan_exp (s : string) : option (Z * string) :=
  match s with
  | String c r =>
      if Ascii.eqb c "e" || Ascii.eqb c "E" then
        let '(neg, r') :=
          match r with
          | String "-" r' => (true, r')
          | String "+" r' => (false, r')
          | _ => (false, r)
          end in
        match scan_digits r' 0%Z 0 with
        | (_, O, _) => None
        | (e, _, rest) => Some (if neg then (- e)%Z else e, rest)
        end
      else None
  | EmptyString => None
  end.

(** A number: an optional minus, then 0 or a non-zero digit and more
    digits, then an optional fraction (a dot and digits) and an optional
    exponent.  An integer literal gives an [int], one with a fraction or an
    exponent a [float]. *)
Definition scan_number (s : string) : option (pyval * string) :=
  let '(neg, s1) :=
    match s with
    | String "-" r => (true, r)
    | _ => (false, s)
    end in
  let int_part :=
    match s1 with
    | String "0" r => Some (0%Z, r)
    | String c _ =>
        if is_digit c then let '(v, _, r) := scan_digits s1 0%Z 0 in Some (v, r)
        else None
    | EmptyString => None
    end in
  match int_part with
  | None => None
  | Some (i, s2) =>
      let sign (z : Z) := if neg then (- z)%Z else z in
      match scan_frac s2 i with
      | Some (m, k, s3) =>
          match scan_exp s3 with
          | Some (e, s4) => Some (PFloat (decimal (sign m) (e - Z.of_nat k)), s4)
          | None => Some (PFloat (decimal (sign m) (- Z.of_nat k)), s3)
          end
      | None =>
          match scan_exp s2 with
          | Some (e, s4) => Some (PFloat (decimal (sign i) e), s4)
          | None => Some (PInt (sign i), s2)
          end
      end
  end.

Definition hex_val (c : ascii) : option nat :=
  let n := nat_of_ascii c in
  if ((48 <=? n) && (n <=? 57))%nat then Some (n - 48)
  else if ((65 <=? n) && (n <=? 70))%nat then Some (n - 55)
  else if ((97 <=? n) && (n <=? 102))%nat then Some (n - 87)
  else None.

(** The code point of [\uXXXX], when below 256. *)
Definition scan_unicode (s : string) : option (ascii * string) :=
  match s with
  | String a (String b (String c (String d r))) =>
      match hex_val a, hex_val b, hex_val c, hex_val d with
      | Some 0, Some 0, Some x, Some y => Some (ascii_of_nat (16 * x + y), r)
      | _, _, _, _ => None
      end
  | _ => None
  end.

(** The text of a string literal after its opening quote, up to the closing
    one; control characters are refused, escapes decoded. *)
Fixpoint scan_string (s : string) (acc : string) : option (string * string) :=
  match s with
  | EmptyString => None
  | String c r =>
      let n := nat_of_ascii c in
      if (n =? 34)%nat then Some (acc, r)
      else if (n <? 32)%nat then None
      else if (n =? 92)%nat then
        match r with
        | String e r' =>
            let lit (x : nat) := scan_string r' (acc ++ String (ascii_of_nat x) EmptyString) in
            let k := nat_of_ascii e in
            if (k =? 34)%nat then lit 34
            else if (k =? 92)%nat then lit 92
            else if (k =? 47)%nat then lit 47
            else if Ascii.eqb e "b" then lit 8
            else if Ascii.eqb e "f" then lit 12
            else if Ascii.eqb e "n" then lit 10
            else if Ascii.eqb e "r" then lit 13
            else if Ascii.eqb e "t" then lit 9
            else if Ascii.eqb e "u" then
              match r' with
              | String a (String b (String x (String y r'')) ) =>
                  match scan_unicode r' with
                  | Some (u, _) => scan_string r'' (acc ++ String u EmptyString)
                  | None => None
                  end
              | _ => None
              end
            else None
        | EmptyString => None
        end
      else scan_string r (acc ++ String c EmptyString)
  end.

(** One JSON value at the head of the text, and the rest.  [fuel] bounds
    the nesting and the number of members read; [json_decode] gives more
    than the length of the text. *)
Fixpoint parse_value (fuel : nat) (s : string) {struct fuel} : option (pyval * string) :=
  match fuel with
  | O => None
  | S f =>
      match s with
      | EmptyString => None
      | String c r =>
          if (nat_of_ascii c =? 34)%nat then
            match scan_string r EmptyString with
            | Some (str, r') => Some (PStr str, r')
            | None => None
            end
          else if Ascii.eqb c "{" then
            match skip_ws r with
            | String "}" r' => Some (PDict [], r')
            | r' => parse_members f r' []
            end
          else if Ascii.eqb c "[" then
            match skip_ws r with
            | String "]" r' => Some (PList [], r')
            | r' => parse_elements f r' []
            end
          else if prefix "null" s then Some (PNone, substring 4 (String.length s - 4) s)
          else if prefix "true" s then Some (PBool true, substring 4 (String.length s - 4) s)
          else if prefix "false" s then Some (PBool false, substring 5 (String.length s - 5) s)
          else scan_number s
      end
  end
with parse_members (fuel : nat) (s : string) (acc : list (string * pyval))
       {struct fuel} : option (pyval * string) :=
  match fuel with
  | O => None
  | S f =>
      match s with
      | String c r =>
          if (nat_of_ascii c =? 34)%nat then
            match scan_string r EmptyString with
            | Some (key, r1) =>
                match skip_ws r1 with
                | String ":" r2 =>
                    match parse_value f (skip_ws r2) with
                    | Some (v, r3) =>
                        let acc' := dict_set String.eqb key v acc in
                        match skip_ws r3 with
                        | String "}" r4 => Some (PDict acc', r4)
                        | String "," r4 => parse_members f (skip_ws r4) acc'
                        | _ => None
                        end
                    | None => None
                    end
                | _ => None
                end
            | None => None
            end
          else None
      | EmptyString => None
      end
  end
with parse_elements (fuel : nat) (s : string) (acc : list pyval)
       {struct fuel} : option (pyval * string) :=
  match fuel with
  | O => None
  | S f =>
      match parse_value f s with
      | Some (v, r) =>
          match skip_ws r with
          | String "]" r' => Some (PList (acc ++ [v]), r')
          | String "," r' => parse_elements f (skip_ws r') (acc ++ [v])
          | _ => None
          end
      | None => None
      end
  end.

(** [json.loads(s)]: one value, blanks around it, nothing else. *)
Definition json_decode (s : string) : result pyval :=
  match parse_value (S (String.length s)) (skip_ws s) with
  | Some (v, r) =>
      match skip_ws r with
      | EmptyString => Ok v
      | _ => Raise JSONDecodeError
      end
  | None => Raise JSONDecodeError
  end.

(* ================================================================= *)
(** ** Movies, the page, the outside world *)

(** A record of the provider's result pages, with the fields the script
    reads.  [None] stands for a key that is missing ([release_date] also
    when it is null). *)
Record movie : Type := {
  movie_id : Z;
  title : string;
  release_date : option string;
  genre_ids : option (list Z);
  popularity : option Q
}.

(** The five calls of the fallback chain, by the comments of the source:
    the first call, then Fallback 1 to Fallback 4. *)
Inductive stage : Type :=
| Full
| DropScore
| DropRuntime
| DropCertification
| SingleGenre.

(** The arguments of one call of [discover_movies], in its order. *)
Record call_args : Type := {
  a_genres : pyval;
  a_year_start : pyval;
  a_year_end : pyval;
  a_min_score : pyval;
  a_certification : pyval;
  a_min_runtime : pyval;
  a_max_runtime : pyval;
  a_include_adult : pyval
}.

(** What a run leaves behind, in order: the requests sent (with what came
    back), the messages shown on the page (their text without the
    pictogram in front) and the grid, and each call of [discover_movies]
    with its outcome, recorded when it ends. *)
Inductive event : Type :=
| Model (prompt : string)
| Request (url : string) (params : list (string * pyval))
          (outcome : result (option (list movie)))
| Discover (s : stage) (a : call_args) (outcome : result (list movie))
| StError (msg : string)
| StInfo (msg : string)
| StWarning (msg : string)
| Display (movies : list movie).

(** The collaborators of the script.
    - [API_KEY]: [os.getenv], a string or [None];
    - [genre_listing]: the name and id of each genre of the provider's
      genre list.  [get_genre_ids] is memoised ([st.cache_data]) and the
      script calls it before anything else, so every later call yields the
      dictionary built from the listing loaded then;
    - [invoke_model]: the model endpoint, from the prompt to the body read
      from the response;
    - [requests_get]: a GET on the provider followed by
      [response.json().get(results, [])], [None] for a payload without
      that key;
    - [json_loads], [py_int]: the library's [json.loads] and [int]. *)
Class Externals : Type := {
  World : Type;
  API_KEY : pyval;
  genre_listing : list (string * Z);
  invoke_model : string -> World -> result string * World;
  requests_get : string -> list (string * pyval) -> World ->
                 result (option (list movie)) * World;
  json_loads : string -> result pyval;
  py_int : string -> result Z
}.

Section Program.
Context {E : Externals}.

Record state : Type := {
  world : World;
  log : list event
}.

(** Statements: they read and change the state, and return or raise. *)
Definition M (A : Type) : Type := state -> result A * state.

Definition ret {A} (a : A) : M A := fun st => (Ok a, st).

Definition bind {A B} (m : M A) (k : A -> M B) : M B :=
  fun st =>
    match m st with
    | (Ok a, st') => k a st'
    | (Raise e, st') => (Raise e, st')
    end.

Definition lift {A} (r : result A) : M A := fun st => (r, st).

Definition emit (e : event) : M unit :=
  fun st => (Ok tt, {| world := world st; log := log st ++ [e] |}).

(** [try: body / except: handler] with a bare [except]. *)
Definition try_except {A} (body handler : M A) : M A :=
  fun st =>
    match body st with
    | (Ok a, st') => (Ok a, st')
    | (Raise _, st') => handler st'
    end.

End Program.

Declare Scope prog_scope.
Delimit Scope prog_scope with prog.
Notation "x <- c ;; k" := (bind c (fun x => k))
  (at level 61, c at next level, right associativity) : prog_scope.
Notation "c ;;; k" := (bind c (fun _ => k))
  (at level 61, right associativity) : prog_scope.
Notation "x <~ c ; k" := (rbind c (fun x => k))
  (at level 61, c at next level, right associativity) : prog_scope.
Local Open Scope prog_scope.

Section Interpreter.
Context {E : Externals}.

Definition bedrock_invoke_model (prompt : string) : M string :=
  fun st =>
    let '(r, w) := invoke_model prompt (world st) in
    (r, {| world := w; log := log st ++ [Model prompt] |}).

Definition fence : string := "```".
Definition json_fence : string := "```json".

(** Line 66, for a [text] that is a string. *)
Definition extract_json_text (text : string) : string :=
  if contains json_fence text
  then hd EmptyString (split fence (last (split json_fence (strip text)) EmptyString))
  else text.

(** Lines 66-67 for any [text]: only a string gets through; [in] on a list
    or a dict is a membership test and finds no [strip] afterwards, and
    [json.loads] takes no list or dict; [in] on the other values is a type
    error. *)
Definition loads_model_text (text : pyval) : result pyval :=
  match text with
  | PStr s => json_loads (extract_json_text s)
  | PList l =>
      if existsb (fun x => match x with
                           | PStr s => String.eqb s json_fence
                           | _ => false
                           end) l
      then Raise AttributeError else Raise TypeError
  | PDict d =>
      if dict_mem String.eqb json_fence d
      then Raise AttributeError else Raise TypeError
  | _ => Raise TypeError
  end.

(** The body of the [try] (lines 65-67). *)
Definition parse_model_result (res : pyval) : result pyval :=
  content <~ py_getitem res "content";
  first <~ py_getitem0 content;
  text <~ py_getitem first "text";
  loads_model_text text.

Definition parse_error_msg : string :=
  "Claude response couldn't be parsed. Try rewording your query.".

(** Lines 32-70.  The model is invoked and its body decoded before the
    [try]; the [except] shows an error on the page and returns [{}]. *)
Definition gpt_parse_prompt (prompt : string) : M pyval :=
  body <- bedrock_invoke_model prompt ;;
  res <- lift (json_loads body) ;;
  try_except (lift (parse_model_result res))
             (emit (StError parse_error_msg) ;;; ret (PDict [])).

End Interpreter.

(* ================================================================= *)
(** ** The discovery engine: [discover_movies] *)

Section Discovery.
Context {E : Externals}.

Definition BASE_URL : string := "https://api.themoviedb.org/3".

(** Lines 72-76: the dictionary from genre names to ids. *)
Definition get_genre_ids : list (string * Z) :=
  dict_of_items String.eqb genre_listing.

(** [for g in genres]: the items of a list, the characters of a string,
    the keys of a dict. *)
Definition py_iter (v : pyval) : result (list pyval) :=
  match v with
  | PList l => Ok l
  | PStr s => Ok (map (fun c => PStr (String c EmptyString)) (list_ascii_of_string s))
  | PDict d => Ok (map (fun kv => PStr (fst kv)) d)
  | _ => Raise TypeError
  end.

(** [g in genre_id_map]: a list or a dict cannot be hashed; the keys are
    strings. *)
Definition in_genre_map (genre_id_map : list (string * Z)) (g : pyval) : result bool :=
  match g with
  | PStr s => Ok (dict_mem String.eqb s genre_id_map)
  | PList _ | PDict _ => Raise TypeError
  | _ => Ok false
  end.

(** Line 81: [[str(genre_id_map[g]) for g in genres if g in genre_id_map]]. *)
Fixpoint resolve_genres (genre_id_map : list (string * Z)) (gs : list pyval)
  : result (list string) :=
  match gs with
  | [] => Ok []
  | g :: gs' =>
      b <~ in_genre_map genre_id_map g;
      rest <~ resolve_genres genre_id_map gs';
      match g, b with
      | PStr s, true =>
          match dict_find String.eqb s genre_id_map with
          | Some i => Ok (str_of_int i :: rest)
          | None => Raise KeyError
          end
      | _, _ => Ok rest
      end
  end.

(** Lines 83-94. *)
Definition base_params (genre_ids : list string)
    (min_score certification min_runtime max_runtime include_adult : pyval)
  : list (string * pyval) :=
  [ ("api_key", API_KEY);
    ("language", PStr "en-US");
    ("sort_by", PStr "popularity.desc");
    ("include_adult", include_adult);
    ("with_genres", match genre_ids with
                    | [] => PNone
                    | _ => PStr (join "," genre_ids)
                    end);
    ("vote_average.gte", min_score);
    ("certification_country", PStr "US");
    ("certification.lte", certification);
    ("with_runtime.gte", min_runtime);
    ("with_runtime.lte", max_runtime) ].

(** Line 99: [{k: v for k, v in base_params.items() if v is not None}]. *)
Definition sent_params (params : list (string * pyval)) : list (string * pyval) :=
  filter (fun kv => is_not_None (snd kv)) params.

Definition http_get (url : string) (params : list (string * pyval))
  : M (option (list movie)) :=
  fun st =>
    let '(r, w) := requests_get url params (world st) in
    (r, {| world := w; log := log st ++ [Request url params r] |}).

(** [.get(results, [])]. *)
Definition page_results (payload : option (list movie)) : list movie :=
  match payload with
  | Some l => l
  | None => []
  end.

(** [range(1, 6)]. *)
Definition pages : list Z := [1; 2; 3; 4; 5]%Z.

(** Lines 96-100: the loop over the pages.  Nothing catches what a request
    raises. *)
Fixpoint fetch_pages (params : list (string * pyval)) (ps : list Z)
    (results : list movie) : M (list movie) :=
  match ps with
  | [] => ret results
  | page :: ps' =>
      let params' := dict_set String.eqb "page" (PInt page) params in
      payload <- http_get (BASE_URL ++ "/discover/movie") (sent_params params') ;;
      fetch_pages params' ps' (results ++ page_results payload)
  end.

(** A list comprehension with a condition that may raise. *)
Fixpoint filter_r {A} (p : A -> result bool) (l : list A) : result (list A) :=
  match l with
  | [] => Ok []
  | x :: l' =>
      b <~ p x;
      rest <~ filter_r p l';
      Ok (if b then x :: rest else rest)
  end.

(** The number behind a value in a comparison with an [int]. *)
Definition num_of (v : pyval) : option Q :=
  match v with
  | PInt z => Some (inject_Z z)
  | PFloat q => Some q
  | PBool b => Some (if b then 1%Q else 0%Q)
  | _ => None
  end.

(** [a <= b] where one side is an [int]. *)
Definition py_le (a b : pyval) : result bool :=
  match num_of a, num_of b with
  | Some x, Some y => Ok (Qle_bool x y)
  | _, _ => Raise TypeError
  end.

(** The condition of line 103:
    [m.get(release_date, empty) and year_start <= int(m[release_date][:4]) <= year_end]. *)
Definition year_cond (year_start year_end : pyval) (m : movie) : result bool :=
  match release_date m with
  | Some d =>
      if truthy (PStr d) then
        y <~ py_int (slice_to 4 d);
        lo <~ py_le year_start (PInt y);
        if lo then py_le (PInt y) year_end else Ok false
      else Ok false
  | None => Ok false
  end.

(** Lines 102-103. *)
Definition year_filter (year_start year_end : pyval) (results : list movie)
  : result (list movie) :=
  if truthy year_start && truthy year_end
  then filter_r (year_cond year_start year_end) results
  else Ok results.

(** Line 106: [{v: k for k, v in get_genre_ids().items()}]. *)
Definition reverse_genre_map : list (Z * string) :=
  dict_of_items Z.eqb (map (fun kv => (snd kv, fst kv)) get_genre_ids).

(** [g == x] for [x] a genre name or [None]. *)
Definition eq_name (g : pyval) (x : option string) : bool :=
  match g, x with
  | PStr s, Some n => String.eqb s n
  | PNone, None => true
  | _, _ => false
  end.

(** The condition of line 109:
    [any(g in [reverse_genre_map.get(id) for id in m.get(genre_ids, [])] for g in genres)]. *)
Definition genre_cond (gs : list pyval) (m : movie) : bool :=
  let names :=
    map (fun i => dict_find Z.eqb i reverse_genre_map)
        (match genre_ids m with Some l => l | None => [] end) in
  existsb (fun g => existsb (eq_name g) names) gs.

(** Lines 105-110. *)
Definition genre_filter (genres : pyval) (results : list movie)
  : result (list movie) :=
  if truthy genres
  then gs <~ py_iter genres; Ok (filter (genre_cond gs) results)
  else Ok results.

(** The key of line 112: [m.get(popularity, 0)]. *)
Definition popularity_key (m : movie) : Q :=
  match popularity m with
  | Some q => q
  | None => 0%Q
  end.

(** [list.sort(key=..., reverse=True)] keeps the order of equal keys: an
    element goes in front of the first one whose key is not above its own. *)
Fixpoint insert_desc (m : movie) (l : list movie) : list movie :=
  match l with
  | [] => [m]
  | x :: l' =>
      if Qle_bool (popularity_key x) (popularity_key m)
      then m :: l
      else x :: insert_desc m l'
  end.

Definition sort_by_popularity (l : list movie) : list movie :=
  fold_right insert_desc [] l.

(** Lines 102-113: what is done to the fetched results. *)
Definition post_process (genres year_start year_end : pyval)
    (results : list movie) : result (list movie) :=
  results <~ year_filter year_start year_end results;
  results <~ genre_filter genres results;
  Ok (sort_by_popularity results).

(** Lines 78-113. *)
Definition discover_movies
    (genres year_start year_end min_score certification
     min_runtime max_runtime include_adult : pyval) : M (list movie) :=
  let genre_id_map := get_genre_ids in
  gs <- lift (py_iter genres) ;;
  genre_ids <- lift (resolve_genres genre_id_map gs) ;;
  results <- fetch_pages
               (base_params genre_ids min_score certification
                            min_runtime max_runtime include_adult)
               pages [] ;;
  lift (post_process genres year_start year_end results).

End Discovery.

(* ================================================================= *)
(** ** The page: merging the interpreter's output, the fallback chain *)

Section Page.
Context {E : Externals}.

(** The variables of the script that hold the filters. *)
Record vars : Type := {
  v_genres : pyval;
  v_y_start : pyval;
  v_y_end : pyval;
  v_min_score : pyval;
  v_min_runtime : pyval;
  v_max_runtime : pyval
}.

(** What the widgets yield in one run of the script: the text input, the
    genre multiselect, the decade selectbox, the two checkboxes and the
    button. *)
Record page_input : Type := {
  ui_query : string;
  ui_genres : list string;
  ui_decade : string;
  ui_critics_only : bool;
  ui_include_adult : bool;
  ui_button : bool
}.

(** Lines 137-146: [decade_range.get(decade, (None, None))]. *)
Definition decade_range : list (string * (pyval * pyval)) :=
  [ ("1970s", (PInt 1970, PInt 1979));
    ("1980s", (PInt 1980, PInt 1989));
    ("1990s", (PInt 1990, PInt 1999));
    ("2000s", (PInt 2000, PInt 2009));
    ("2010s", (PInt 2010, PInt 2019));
    ("2020s", (PInt 2020, PInt 2025));
    ("Any", (PNone, PNone)) ].

Definition decade_years (decade : string) : pyval * pyval :=
  match dict_find String.eqb decade decade_range with
  | Some r => r
  | None => (PNone, PNone)
  end.

(** Lines 133-154: the variables as the widgets set them. *)
Definition manual_vars (ui : page_input) : vars :=
  {| v_genres := PList (map PStr (ui_genres ui));
     v_y_start := fst (decade_years (ui_decade ui));
     v_y_end := snd (decade_years (ui_decade ui));
     v_min_score := if ui_critics_only ui then PFloat 7 else PNone;
     v_min_runtime := PNone;
     v_max_runtime := PNone |}.

(** Lines 160-168, [parsed] being what [gpt_parse_prompt] returned.  The
    conditions are evaluated from left to right and stop at the first
    falsy operand. *)
Definition merge_parsed (decade : string) (v : vars) (parsed : pyval) : result vars :=
  genres <~
    (if negb (truthy (v_genres v)) then
       g <~ py_get parsed "genres";
       if truthy g then py_getitem parsed "genres" else Ok (v_genres v)
     else Ok (v_genres v));
  years <~
    (if String.eqb decade "Any" then
       a <~ py_get parsed "year_start";
       if truthy a then
         b <~ py_get parsed "year_end";
         if truthy b then
           ys <~ py_getitem parsed "year_start";
           ye <~ py_getitem parsed "year_end";
           Ok (ys, ye)
         else Ok (v_y_start v, v_y_end v)
       else Ok (v_y_start v, v_y_end v)
     else Ok (v_y_start v, v_y_end v));
  min_score <~
    (if negb (truthy (v_min_score v)) then
       s <~ py_get parsed "min_score";
       if truthy s then py_getitem parsed "min_score" else Ok (v_min_score v)
     else Ok (v_min_score v));
  min_runtime <~ py_get parsed "min_runtime";
  max_runtime <~ py_get parsed "max_runtime";
  Ok {| v_genres := genres;
        v_y_start := fst years;
        v_y_end := snd years;
        v_min_score := min_score;
        v_min_runtime := min_runtime;
        v_max_runtime := max_runtime |}.

(** The name [parsed] is bound only when line 158 ran. *)
Definition lookup_parsed (parsed : option pyval) : result pyval :=
  match parsed with
  | Some p => Ok p
  | None => Raise (NameError "parsed")
  end.

(** [parsed.get(certification)]. *)
Definition parsed_certification (parsed : option pyval) : result pyval :=
  p <~ lookup_parsed parsed;
  py_get p "certification".

(** One call of [discover_movies], recorded with its outcome. *)
Definition discover_call (s : stage) (a : call_args) : M (list movie) :=
  fun st =>
    let '(r, st') :=
      discover_movies (a_genres a) (a_year_start a) (a_year_end a)
                      (a_min_score a) (a_certification a)
                      (a_min_runtime a) (a_max_runtime a)
                      (a_include_adult a) st in
    (r, {| world := world st'; log := log st' ++ [Discover s a r] |}).

(** [not movies]. *)
Definition no_movies (movies : list movie) : bool :=
  match movies with
  | [] => true
  | _ => false
  end.

Definition mk_args (genres y_start y_end min_score certification
                    min_runtime max_runtime include_adult : pyval) : call_args :=
  {| a_genres := genres;
     a_year_start := y_start;
     a_year_end := y_end;
     a_min_score := min_score;
     a_certification := certification;
     a_min_runtime := min_runtime;
     a_max_runtime := max_runtime;
     a_include_adult := include_adult |}.

(** Lines 171-215: the first search and the four fallbacks. *)
Definition recommend_handler (v : vars) (parsed : option pyval)
    (include_adult : pyval) : M (list movie) :=
  let genres := v_genres v in
  let y_start := v_y_start v in
  let y_end := v_y_end v in
  cert <- lift (parsed_certification parsed) ;;
  movies <- discover_call Full
              (mk_args genres y_start y_end (v_min_score v) cert
                       (v_min_runtime v) (v_max_runtime v) include_adult) ;;
  movies <-
    (if no_movies movies then
       emit (StInfo "No results with all filters. Trying without critic score...") ;;;
       cert <- lift (parsed_certification parsed) ;;
       discover_call DropScore
         (mk_args genres y_start y_end PNone cert
                  (v_min_runtime v) (v_max_runtime v) include_adult)
     else ret movies) ;;
  movies <-
    (if no_movies movies then
       emit (StInfo "Still nothing. Trying without runtime filter...") ;;;
       cert <- lift (parsed_certification parsed) ;;
       discover_call DropRuntime
         (mk_args genres y_start y_end PNone cert PNone PNone include_adult)
     else ret movies) ;;
  movies <-
    (if no_movies movies then
       cert <- lift (parsed_certification parsed) ;;
       if truthy cert then
         emit (StInfo "Still no results. Trying without certification filter...") ;;;
         discover_call DropCertification
           (mk_args genres y_start y_end PNone PNone PNone PNone include_adult)
       else ret movies
     else ret movies) ;;
  movies <-
    (if no_movies movies && truthy genres then
       emit (StInfo "Trying again with only one genre...") ;;;
       g <- lift (py_getitem0 genres) ;;
       discover_call SingleGenre
         (mk_args (PList [g]) y_start y_end PNone PNone PNone PNone include_adult)
     else ret movies) ;;
  ret movies.

(** Lines 130-220, one run of the script.  [display_movies] belongs to the
    presentation layer; the run records the list it is given. *)
Definition script (ui : page_input) : M unit :=
  let include_adult := PBool (ui_include_adult ui) in
  bound <-
    (if truthy (PStr (ui_query ui)) then
       parsed <- gpt_parse_prompt (ui_query ui) ;;
       v <- lift (merge_parsed (ui_decade ui) (manual_vars ui) parsed) ;;
       ret (Some parsed, v)
     else ret (None, manual_vars ui)) ;;
  if ui_button ui then
    movies <- recommend_handler (snd bound) (fst bound) include_adult ;;
    if no_movies movies
    then emit (StWarning "No results found at all. Try a more general query.")
    else emit (Display movies)
  else ret tt.

End Page.

(* ================================================================= *)
(** ** Reading a run *)

(** The requests of a piece of log, in order. *)
Record request : Type := {
  req_url : string;
  req_params : list (string * pyval);
  req_outcome : result (option (list movie))
}.

Definition requests_of (evs : list event) : list request :=
  flat_map (fun ev => match ev with
                      | Request u p o =>
                          [{| req_url := u; req_params := p; req_outcome := o |}]
                      | _ => []
                      end) evs.

(** The calls of [discover_movies] of a piece of log, in order. *)
Record call : Type := {
  call_stage : stage;
  call_with : call_args;
  call_outcome : result (list movie)
}.

Definition calls_of (evs : list event) : list call :=
  flat_map (fun ev => match ev with
                      | Discover s a r =>
                          [{| call_stage := s; call_with := a; call_outcome := r |}]
                      | _ => []
                      end) evs.




(** The release year a movie shows, when it has a date whose first four
    characters [int] accepts. *)
Definition release_year {E : Externals} (m : movie) : option Z :=
  match release_date m with
  | Some d =>
      if truthy (PStr d) then
        match py_int (slice_to 4 d) with
        | Ok y => Some y
        | Raise _ => None
        end
      else None
  | None => None
  end.

Definition has_date (m : movie) : bool :=
  match release_date m with
  | Some d => truthy (PStr d)
  | None => false
  end.

Definition year_in_range {E : Externals} (ys ye : Z) (m : movie) : bool :=
  match release_year m with
  | Some y => (ys <=? y)%Z && (y <=? ye)%Z
  | None => false
  end.

(** The request of one page, with what came back. *)
Definition page_request {E : Externals} (params : list (string * pyval))
    (page : Z) (outcome : result (option (list movie))) : event :=
  Request (BASE_URL ++ "/discover/movie")
          (sent_params (dict_set String.eqb "page" (PInt page) params)) outcome.

Definition page_requests {E : Externals} (params : list (string * pyval))
    (ps : list Z) (outcomes : list (result (option (list movie)))) : list event :=
  map (fun po => page_request params (fst po) (snd po)) (combine ps outcomes).

(** What a parameter carries for a value: nothing for [None]. *)
Definition as_sent (v : pyval) : option pyval :=
  if is_not_None v then Some v else None.

(** The ids, as text, of the requested names the catalogue knows. *)
Definition matched_ids {E : Externals} (names : list string) : list string :=
  flat_map (fun n => match dict_find String.eqb n get_genre_ids with
                     | Some i => [str_of_int i]
                     | None => []
                     end) names.

(** A requested name the catalogue knows. *)
Definition matched {E : Externals} (name : string) : bool :=
  dict_mem String.eqb name get_genre_ids.

Definition same_popularity (q : Q) (m : movie) : bool :=
  Qeq_bool (popularity_key m) q.

(* ================================================================= *)
(** ** Worlds to run the script in *)

(** JSON text of a string: quotes, backslashes and line feeds escaped. *)
Fixpoint json_escape (s : string) : string :=
  match s with
  | EmptyString => EmptyString
  | String c r =>
      let n := nat_of_ascii c in
      if (n =? 34)%nat then String (ascii_of_nat 92) (String c (json_escape r))
      else if (n =? 92)%nat then String c (String c (json_escape r))
      else if (n =? 10)%nat then String (ascii_of_nat 92) (String "n" (json_escape r))
      else String c (json_escape r)
  end.

(** The body of a model response whose text is [text]. *)
Definition model_body (text : string) : string :=
  "{" ++ quoted "content" ++ ": [{" ++ quoted "type" ++ ": " ++ quoted "text"
  ++ ", " ++ quoted "text" ++ ": " ++ quoted (json_escape text) ++ "}]}".

(** A world without memory: the model answers [reply] to every prompt and
    the provider answers a request by [serve], from its parameters. *)
Definition fixed_world (listing : list (string * Z)) (reply : result string)
    (serve : list (string * pyval) -> result (option (list movie))) : Externals :=
  {| World := unit;
     API_KEY := PStr "key";
     genre_listing := listing;
     invoke_model := fun _ w => (reply, w);
     requests_get := fun _ params w => (serve params, w);
     json_loads := json_decode;
     py_int := int_literal |}.

Definition state_of {E : Externals} (w : World) (l : list event) : state :=
  {| world := w; log := l |}.

Definition start {E : Externals} (w : World) : state := state_of w [].

Definition film (i : Z) (date : option string) (gs : list Z) (pop : option Q) : movie :=
  {| movie_id := i; title := "film"; release_date := date;
     genre_ids := Some gs; popularity := pop |}.

(** The same payload on every page. *)
Definition always (l : list movie) (params : list (string * pyval))
  : result (option (list movie)) := Ok (Some l).

(** [l] on the first page, nothing after. *)
Definition first_page_only (l : list movie) (params : list (string * pyval))
  : result (option (list movie)) :=
  match dict_find String.eqb "page" params with
  | Some (PInt 1) => Ok (Some l)
  | _ => Ok (Some [])
  end.

(** One film per page, and a failure from page 3 on. *)
Definition fails_at_3 (params : list (string * pyval))
  : result (option (list movie)) :=
  match dict_find String.eqb "page" params with
  | Some (PInt 1) => Ok (Some [film 1 None [] None])
  | Some (PInt 2) => Ok (Some [film 2 None [] None])
  | _ => Raise (ProviderError "timeout")
  end.

Definition action_catalog : list (string * Z) := [("Action", 28%Z); ("Comedy", 35%Z)].

(** The model declines. *)
Definition sorry_text : string := "Sorry, I cannot help.".

Definition sorry_world : Externals :=
  fixed_world action_catalog (Ok (model_body sorry_text)) (always []).

(** The model endpoint cannot be reached. *)
Definition down_world : Externals :=
  fixed_world action_catalog (Raise (ProviderError "endpoint unreachable")) (always []).

(** A provider with nothing to offer. *)
Definition quiet_world : Externals :=
  fixed_world action_catalog (Ok (model_body sorry_text)) (always []).

(** A provider whose third page fails. *)
Definition flaky_world : Externals :=
  fixed_world action_catalog (Ok (model_body sorry_text)) fails_at_3.

(** [a] may stand before [b] in a list ranked by descending popularity. *)
Definition ranked_before (a b : movie) : Prop :=
  (popularity_key b <= popularity_key a)%Q.

(** Four films of popularity 3.2, 9.1, 9.1 and 1.0 on the first page. *)
Definition ranked_world : Externals :=
  fixed_world action_catalog (Ok (model_body sorry_text))
    (first_page_only
       [ film 1 None [] (Some (32 # 10)%Q); film 2 None [] (Some (91 # 10)%Q);
         film 3 None [] (Some (91 # 10)%Q); film 4 None [] (Some 1%Q) ]).

(** A provider that has one action film for every page. *)
Definition action_world : Externals :=
  fixed_world action_catalog (Ok (model_body sorry_text))
    (always [film 1 None [28%Z] None]).

(** The outcome of the last call of a list of calls. *)
Definition final_outcome (calls : list call) : option (result (list movie)) :=
  match rev calls with
  | c :: _ => Some (call_outcome c)
  | [] => None
  end.




(** Texts a model may answer with. *)
Definition genres_json (name : string) : string :=
  "{" ++ quoted "genres" ++ ": [" ++ quoted name ++ "]}".

Definition comedy_json : string :=
  "{" ++ quoted "genres" ++ ": [" ++ quoted "Comedy" ++ "], "
  ++ quoted "year_start" ++ ": null}".

(** One block tagged json. *)
Definition fenced_comedy : string :=
  json_fence ++ nl ++ comedy_json ++ nl ++ fence.

(** Two blocks tagged json. *)
Definition two_blocks : string :=
  json_fence ++ nl ++ genres_json "Comedy" ++ nl ++ fence ++ nl
  ++ json_fence ++ nl ++ genres_json "Drama" ++ nl ++ fence.

(** One block without a tag. *)
Definition plain_block : string :=
  fence ++ nl ++ genres_json "Comedy" ++ nl ++ fence.

Definition comedy_world : Externals :=
  fixed_world action_catalog (Ok (model_body fenced_comedy)) (always []).

Definition is_alnum (c : ascii) : bool :=
  let n := nat_of_ascii c in
  (((48 <=? n) && (n <=? 57)) || ((65 <=? n) && (n <=? 90))
   || ((97 <=? n) && (n <=? 122)))%nat.

(** The tag that follows an opening fence, passed over. *)
Fixpoint drop_info (s : string) : string :=
  match s with
  | EmptyString => EmptyString
  | String c r => if is_alnum c then drop_info r else s
  end.

(** The text to parse as the specification words it (section 4.2): the
    content of the first fenced block if the text has a fenced block, the
    raw text otherwise.  For comparison with [extract_json_text]. *)
Definition spec_json_text (text : string) : string :=
  match split fence text with
  | _ :: block :: _ => drop_info block
  | _ => text
  end.

(** The genre ids a movie carries: [m.get(genre_ids, [])]. *)
Definition movie_genre_ids (m : movie) : list Z :=
  match genre_ids m with
  | Some l => l
  | None => []
  end.

(** A record of the provider without the [genre_ids] key. *)
Definition film_without_genres (i : Z) : movie :=
  {| movie_id := i; title := "film"; release_date := None;
     genre_ids := None; popularity := None |}.

(* ================================================================= *)
(** ** What a statement adds to the log *)

(** The prompts sent to the model, in order. *)
Definition models_of (evs : list event) : list string :=
  flat_map (fun ev => match ev with
                      | Model p => [p]
                      | _ => []
                      end) evs.

(** What a piece of log puts on the page, in order. *)
Definition page_of (evs : list event) : list event :=
  filter (fun ev => match ev with
                    | StError _ | StInfo _ | StWarning _ | Display _ => true
                    | _ => false
                    end) evs.

(** The message that announces a stage, as the handler words it. *)
Definition stage_message (s : stage) : option string :=
  match s with
  | Full => None
  | DropScore => Some "No results with all filters. Trying without critic score..."
  | DropRuntime => Some "Still nothing. Trying without runtime filter..."
  | DropCertification => Some "Still no results. Trying without certification filter..."
  | SingleGenre => Some "Trying again with only one genre..."
  end.

(** A stage as the page and the provider see it: its message, if it has
    one, then its search. *)
Definition announce (s : stage) : list (string + stage) :=
  match stage_message s with
  | Some msg => [inl msg; inr s]
  | None => [inr s]
  end.

(** The messages and the searches of a piece of log, in order. *)
Definition signals_of (evs : list event) : list (string + stage) :=
  flat_map (fun ev => match ev with
                      | StInfo msg => [inl msg]
                      | Discover s _ _ => [inr s]
                      | _ => []
                      end) evs.

(** [m] leaves the log it finds in place, and what it adds to it and
    returns meets [Q]. *)
Definition adds {E : Externals} {A : Type} (m : M A)
    (Q : result A -> list event -> Prop) : Prop :=
  forall st : state,
    exists evs : list event,
      log (snd (m st)) = log st ++ evs /\ Q (fst (m st)) evs.

(** What one search adds: its own record, requests, and nothing on the
    page or to the model. *)
Definition called (s : stage) (a : call_args) (r : result (list movie))
    (evs : list event) : Prop :=
  calls_of evs = [{| call_stage := s; call_with := a; call_outcome := r |}] /\
  models_of evs = [] /\
  page_of evs = [] /\
  signals_of evs = [inr s] /\
  (List.length (requests_of evs) <= 5)%nat.

(** At most [n] searches so far, five requests each at most, only messages
    of the chain on the page, the model left alone. *)
Definition counted (n : nat) (evs : list event) : Prop :=
  models_of evs = [] /\
  Forall (fun ev => exists msg, ev = StInfo msg) (page_of evs) /\
  (List.length (calls_of evs) <= n)%nat /\
  (List.length (requests_of evs) <= 5 * List.length (calls_of evs))%nat.

(** ... and a list that is returned is the list the last search returned. *)
Definition searched (n : nat) (r : result (list movie)) (evs : list event) : Prop :=
  counted n evs /\
  (forall l, r = Ok l -> final_outcome (calls_of evs) = Some (Ok l)).

(** The messages that go with the work: the parse error and the notes of
    the fallback chain. *)
Definition notice (ev : event) : Prop :=
  match ev with
  | StError _ | StInfo _ => True
  | _ => False
  end.

(** What the script shows for the list it ends with (lines 217-220). *)
Definition verdict (movies : list movie) : event :=
  if no_movies movies
  then StWarning "No results found at all. Try a more general query."
  else Display movies.

(** No search has gone out and nothing but a parse error is on the page. *)
Definition nothing_searched (evs : list event) : Prop :=
  calls_of evs = [] /\ requests_of evs = [] /\
  (page_of evs = [] \/ page_of evs = [StError parse_error_msg]).

(** Every search of a piece of log comes with its message, and there is no
    message without its search. *)
Definition announced (acc : list event) : Prop :=
  signals_of acc = flat_map announce (map call_stage (calls_of acc)).

(** The page as a visitor fills it: one genre selected, no decade, the
    boxes left alone. *)
Definition visit (query : string) (button : bool) : page_input :=
  {| ui_query := query;
     ui_genres := ["Action"];
     ui_decade := "Any";
     ui_critics_only := false;
     ui_include_adult := false;
     ui_button := button |}.

(** The model answers with a JSON array. *)
Definition array_world : Externals :=
  fixed_world action_catalog (Ok (model_body "[1, 2]")) (always []).

(** A value that cannot be a dictionary key. *)
Definition unhashable (g : pyval) : bool :=
  match g with
  | PList _ | PDict _ => true
  | _ => false
  end.

(** Genres that line 81 cannot go through: a value that cannot be iterated,
    or a list with an item that cannot be looked up. *)
Definition bad_genres (genres : pyval) : bool :=
  match genres with
  | PList gs => existsb unhashable gs
  | PStr _ | PDict _ => false
  | _ => true
  end.

(** The endpoint answers, but not with JSON. *)
Definition garbled_world : Externals :=
  fixed_world action_catalog (Ok "<html>Bad Gateway</html>") (always []).

(** A block tagged json whose closing fence was cut after two backquotes. *)
Definition cut_block : string :=
  json_fence ++ nl ++ comedy_json ++ nl ++ "``".

(* ================================================================= *)
(** * Properties *)

(** ** Dictionaries and the merge of the interpreter's output *)

Lemma py_get_dict (d : list (string * pyval)) (key : string) :
  py_get (PDict d) key = Ok (dget d key).
Proof. reflexivity. Qed.

Lemma py_getitem_truthy (d : list (string * pyval)) (key : string) :
  truthy (dget d key) = true -> py_getitem (PDict d) key = Ok (dget d key).
Proof.
  unfold py_getitem, dget.
  destruct (dict_find String.eqb key d); [reflexivity | discriminate].
Qed.

Lemma truthy_names (names : list string) :
  truthy (PList (map PStr names)) = negb (Nat.eqb (List.length names) 0).
Proof. simpl. now rewrite length_map. Qed.

(** C10. With a query, the widgets win over the interpreter: its genres
    are taken only when no genre is selected, its years only when the
    decade is Any and both are truthy, its minimum score only when the
    critics box is off; the runtimes always come from the interpreter. *)
Theorem merge_precedence :
  forall (ui : page_input) (d : list (string * pyval)),
  exists v : vars,
    merge_parsed (ui_decade ui) (manual_vars ui) (PDict d) = Ok v /\
    (ui_genres ui <> [] -> v_genres v = PList (map PStr (ui_genres ui))) /\
    (ui_genres ui = [] ->
     v_genres v = if truthy (dget d "genres") then dget d "genres" else PList []) /\
    (ui_decade ui <> "Any" ->
     (v_y_start v, v_y_end v) = decade_years (ui_decade ui)) /\
    (ui_decade ui = "Any" ->
     (v_y_start v, v_y_end v) =
       if truthy (dget d "year_start") && truthy (dget d "year_end")
       then (dget d "year_start", dget d "year_end")
       else (PNone, PNone)) /\
    (ui_critics_only ui = true -> v_min_score v = PFloat 7) /\
    (ui_critics_only ui = false ->
     v_min_score v = if truthy (dget d "min_score") then dget d "min_score" else PNone) /\
    v_min_runtime v = dget d "min_runtime" /\
    v_max_runtime v = dget d "max_runtime".
Proof.
  intros [query sel decade critics adult button] d.
  unfold merge_parsed, manual_vars; cbn [ui_genres ui_decade ui_critics_only
    v_genres v_y_start v_y_end v_min_score v_min_runtime v_max_runtime].
  rewrite !py_get_dict.
  (* genres *)
  assert (Hg : exists g,
    (if negb (truthy (PList (map PStr sel)))
     then rbind (Ok (dget d "genres"))
            (fun g => if truthy g then py_getitem (PDict d) "genres"
                      else Ok (PList (map PStr sel)))
     else Ok (PList (map PStr sel))) = Ok g /\
    (sel <> [] -> g = PList (map PStr sel)) /\
    (sel = [] -> g = if truthy (dget d "genres") then dget d "genres" else PList [])).
  { destruct sel as [|n sel'].
    - cbn -[py_getitem dget]. destruct (truthy (dget d "genres")) eqn:T.
      + rewrite (py_getitem_truthy _ _ T). eexists; repeat split; congruence.
      + eexists; repeat split; congruence.
    - cbn. eexists; repeat split; congruence. }
  destruct Hg as (g & -> & Hg1 & Hg2).
  (* years *)
  assert (Hy : exists y,
    (if String.eqb decade "Any"
     then rbind (Ok (dget d "year_start"))
            (fun a => if truthy a
               then rbind (Ok (dget d "year_end"))
                      (fun b => if truthy b
                         then rbind (py_getitem (PDict d) "year_start")
                                (fun ys => rbind (py_getitem (PDict d) "year_end")
                                   (fun ye => Ok (ys, ye)))
                         else Ok (fst (decade_years decade), snd (decade_years decade)))
               else Ok (fst (decade_years decade), snd (decade_years decade)))
     else Ok (fst (decade_years decade), snd (decade_years decade))) = Ok y /\
    (decade <> "Any" -> y = decade_years decade) /\
    (decade = "Any" ->
     y = if truthy (dget d "year_start") && truthy (dget d "year_end")
         then (dget d "year_start", dget d "year_end") else (PNone, PNone))).
  { destruct (String.eqb_spec decade "Any") as [-> | Hne].
    - cbn -[py_getitem dget].
      destruct (truthy (dget d "year_start")) eqn:T1;
        [destruct (truthy (dget d "year_end")) eqn:T2|].
      + rewrite (py_getitem_truthy _ _ T1), (py_getitem_truthy _ _ T2).
        cbn -[dget]. eexists; repeat split; congruence.
      + cbn -[dget]. eexists; repeat split; congruence.
      + cbn. eexists; repeat split; congruence.
    - eexists; split; [reflexivity|]. split; [|congruence].
      intros _. now destruct (decade_years decade). }
  destruct Hy as (y & -> & Hy1 & Hy2).
  (* minimum score *)
  assert (Hs : exists s,
    (if negb (truthy (if critics then PFloat 7 else PNone))
     then rbind (Ok (dget d "min_score"))
            (fun s => if truthy s then py_getitem (PDict d) "min_score"
                      else Ok (if critics then PFloat 7 else PNone))
     else Ok (if critics then PFloat 7 else PNone)) = Ok s /\
    (critics = true -> s = PFloat 7) /\
    (critics = false ->
     s = if truthy (dget d "min_score") then dget d "min_score" else PNone)).
  { destruct critics.
    - cbn. eexists; repeat split; congruence.
    - cbn -[py_getitem dget]. destruct (truthy (dget d "min_score")) eqn:T.
      + rewrite (py_getitem_truthy _ _ T). eexists; repeat split; congruence.
      + eexists; repeat split; congruence. }
  destruct Hs as (s & -> & Hs1 & Hs2).
  cbn. eexists. split; [reflexivity|]. cbn.
  destruct y as [ys ye]. cbn.
  repeat split; auto.
Qed.

(** C5. A run without free text whose button is pressed stops at the first
    argument list of line 172: the name [parsed] is unbound.  Nothing is
    searched and nothing is shown. *)
Theorem script_without_query_raises :
  forall (E : Externals) (sel : list string) (decade : string)
         (critics adult : bool) (st : state),
    script {| ui_query := EmptyString;
              ui_genres := sel;
              ui_decade := decade;
              ui_critics_only := critics;
              ui_include_adult := adult;
              ui_button := true |} st
    = (Raise (NameError "parsed"), st).
Proof.
  intros. unfold script, bind, ret, lift. cbn.
  unfold recommend_handler, bind, lift. cbn. reflexivity.
Qed.

(** ** The query interpreter *)

(** C4, counterexample. When the endpoint fails, [gpt_parse_prompt] raises
    to its caller; so it does when the body of the answer is no JSON. *)
Lemma gpt_parse_prompt_raises_when_model_down :
  gpt_parse_prompt (E := down_world) "something to watch" (start (E := down_world) tt)
  = (Raise (ProviderError "endpoint unreachable"),
     state_of (E := down_world) tt [Model "something to watch"]) /\
  gpt_parse_prompt (E := garbled_world) "something to watch"
                   (start (E := garbled_world) tt)
  = (Raise JSONDecodeError,
     state_of (E := garbled_world) tt [Model "something to watch"]).
Proof. split; reflexivity. Qed.

(** C4, amended. What the endpoint raises, and what decoding the body of
    its answer raises, [gpt_parse_prompt] raises to its caller, the prompt
    sent and nothing shown.  Once the endpoint has answered and the body of
    the answer is decoded, [gpt_parse_prompt] returns: what the text parses
    to, or the empty dict with an error on the page when anything in the
    [try] raises. *)
Theorem gpt_parse_prompt_recovers :
  forall (E : Externals) (prompt : string) (st : state),
    (forall (e : exn) (w : World),
       invoke_model prompt (world st) = (Raise e, w) ->
       gpt_parse_prompt prompt st =
       (Raise e, {| world := w; log := log st ++ [Model prompt] |})) /\
    (forall (body : string) (w : World) (e : exn),
       invoke_model prompt (world st) = (Ok body, w) ->
       json_loads body = Raise e ->
       gpt_parse_prompt prompt st =
       (Raise e, {| world := w; log := log st ++ [Model prompt] |})) /\
    (forall (body : string) (w : World) (res : pyval),
       invoke_model prompt (world st) = (Ok body, w) ->
       json_loads body = Ok res ->
       (forall v, parse_model_result res = Ok v ->
          gpt_parse_prompt prompt st =
          (Ok v, {| world := w; log := log st ++ [Model prompt] |})) /\
       (forall e, parse_model_result res = Raise e ->
          gpt_parse_prompt prompt st =
          (Ok (PDict []),
           {| world := w;
              log := (log st ++ [Model prompt]) ++ [StError parse_error_msg] |}))).
Proof.
  intros E prompt st.
  unfold gpt_parse_prompt, bind, bedrock_invoke_model, lift, try_except, emit, ret.
  split; [|split].
  - intros e w Hmodel. now rewrite Hmodel.
  - intros body w e Hmodel Hbody. rewrite Hmodel. cbn. now rewrite Hbody.
  - intros body w res Hmodel Hbody. rewrite Hmodel. cbn. rewrite Hbody. cbn.
    split; intros x Hx; rewrite Hx; reflexivity.
Qed.

(** C4, the plain refusal of the specification: the text is no JSON, the
    page shows the error and the interpreter returns the empty dict. *)
Lemma gpt_parse_prompt_sorry :
  invoke_model (Externals := sorry_world) "something to watch" tt
    = (Ok (model_body sorry_text), tt) /\
  parse_model_result (E := sorry_world)
    (PDict [("content", PList [PDict [("type", PStr "text"); ("text", PStr sorry_text)]])])
    = Raise JSONDecodeError /\
  gpt_parse_prompt (E := sorry_world) "something to watch" (start (E := sorry_world) tt)
    = (Ok (PDict []),
       state_of (E := sorry_world) tt
         [Model "something to watch"; StError parse_error_msg]).
Proof.
  split; [reflexivity|]. split; [reflexivity|].
  exact (proj2 (proj2 (proj2 (gpt_parse_prompt_recovers sorry_world
                                "something to watch"
                                (start (E := sorry_world) tt)))
                  (model_body sorry_text) tt
                  (PDict [("content", PList [PDict [("type", PStr "text");
                                                    ("text", PStr sorry_text)]])])
                  eq_refl eq_refl)
               JSONDecodeError eq_refl).
Defined.

(** ** Requests of a search *)

Lemma dict_set_twice (d : list (string * pyval)) (k : string) (v1 v2 : pyval) :
  dict_set String.eqb k v2 (dict_set String.eqb k v1 d) = dict_set String.eqb k v2 d.
Proof.
  induction d as [|[k' v'] d IH]; simpl.
  - now rewrite String.eqb_refl.
  - destruct (String.eqb k k') eqn:Hk; simpl; rewrite Hk; [reflexivity|].
    now rewrite IH.
Qed.

Lemma page_request_set_page (E : Externals) (params : list (string * pyval))
    (v : pyval) (p : Z) (o : result (option (list movie))) :
  page_request (dict_set String.eqb "page" v params) p o = page_request params p o.
Proof. unfold page_request. now rewrite dict_set_twice. Qed.

Lemma page_requests_set_page (E : Externals) (params : list (string * pyval))
    (v : pyval) (ps : list Z) (outs : list (result (option (list movie)))) :
  page_requests (dict_set String.eqb "page" v params) ps outs = page_requests params ps outs.
Proof.
  unfold page_requests. apply map_ext. intros [p o].
  apply page_request_set_page.
Qed.

Lemma fetch_pages_cons (E : Externals) (p : Z) (ps : list Z)
    (params : list (string * pyval)) (results : list movie) (st : state) :
  fetch_pages params (p :: ps) results st =
  let params' := dict_set String.eqb "page" (PInt p) params in
  match requests_get (BASE_URL ++ "/discover/movie") (sent_params params') (world st) with
  | (Ok payload, w) =>
      fetch_pages params' ps (results ++ page_results payload)
        {| world := w; log := log st ++ [page_request params p (Ok payload)] |}
  | (Raise e, w) =>
      (Raise e, {| world := w; log := log st ++ [page_request params p (Raise e)] |})
  end.
Proof.
  cbn [fetch_pages]. unfold bind, http_get, page_request. cbv zeta.
  destruct (requests_get _ _ _) as [[payload | e] w]; reflexivity.
Qed.

(** What the page loop leaves in the log and returns: a request per page
    while the requests succeed, nothing more after one that raises. *)
Lemma fetch_pages_run (E : Externals) :
  forall (ps : list Z) (params : list (string * pyval)) (results : list movie)
         (st : state),
  exists outs : list (result (option (list movie))),
    log (snd (fetch_pages params ps results st))
      = log st ++ page_requests params ps outs /\
    match fst (fetch_pages params ps results st) with
    | Ok l =>
        exists payloads,
          outs = map Ok payloads /\
          List.length payloads = List.length ps /\
          l = results ++ flat_map page_results payloads
    | Raise e =>
        exists payloads,
          outs = map Ok payloads ++ [Raise e] /\
          (List.length payloads < List.length ps)%nat
    end.
Proof.
  induction ps as [|p ps IH]; intros params results st.
  - exists []. cbn. split; [now rewrite app_nil_r|].
    exists []. cbn. now rewrite app_nil_r.
  - rewrite fetch_pages_cons. cbv zeta.
    destruct (requests_get _ _ _) as [[payload | e] w].
    + match goal with
      | |- context [fetch_pages ?P ps ?R ?S] =>
          destruct (IH P R S) as (outs & Hlog & Hres)
      end.
      exists (Ok payload :: outs). split.
      * rewrite Hlog. cbn [log]. rewrite page_requests_set_page.
        unfold page_requests at 2. cbn [combine map fst snd].
        fold (page_requests params ps outs).
        now rewrite <- app_assoc.
      * destruct (fst (fetch_pages _ ps _ _)) as [l | e].
        -- destruct Hres as (payloads & -> & Hlen & ->).
           exists (payload :: payloads). cbn. rewrite Hlen, <- app_assoc.
           auto.
        -- destruct Hres as (payloads & -> & Hlen).
           exists (payload :: payloads). cbn. split; [reflexivity | lia].
    + exists [Raise e]. cbn. split.
      * now destruct ps.
      * exists []. cbn. split; [reflexivity | lia].
Qed.

(** A search: nothing is sent when the genres cannot be resolved;
    otherwise the pages are requested and the results processed. *)
Lemma discover_movies_run (E : Externals)
    (genres ys ye ms c mr xr ia : pyval) (st : state) :
  match rbind (py_iter genres) (resolve_genres get_genre_ids) with
  | Raise e => discover_movies genres ys ye ms c mr xr ia st = (Raise e, st)
  | Ok ids =>
      exists outs : list (result (option (list movie))),
        log (snd (discover_movies genres ys ye ms c mr xr ia st))
          = log st ++ page_requests (base_params ids ms c mr xr ia) pages outs /\
        ((exists payloads e,
            outs = map Ok payloads ++ [Raise e] /\
            (List.length payloads < 5)%nat /\
            fst (discover_movies genres ys ye ms c mr xr ia st) = Raise e)
         \/
         (exists payloads,
            outs = map Ok payloads /\
            List.length payloads = 5%nat /\
            fst (discover_movies genres ys ye ms c mr xr ia st)
              = post_process genres ys ye (flat_map page_results payloads)))
  end.
Proof.
  unfold discover_movies, bind, lift.
  destruct (py_iter genres) as [gs | e]; cbn [rbind]; [|reflexivity].
  destruct (resolve_genres get_genre_ids gs) as [ids | e]; [|reflexivity].
  destruct (fetch_pages_run E pages (base_params ids ms c mr xr ia) [] st)
    as (outs & Hlog & Hres).
  destruct (fetch_pages (base_params ids ms c mr xr ia) pages [] st)
    as [[l | e] st1]; cbn [fst snd] in *.
  - destruct Hres as (payloads & -> & Hlen & ->).
    exists (map Ok payloads). split; [exact Hlog|].
    right. exists payloads. auto.
  - destruct Hres as (payloads & -> & Hlen).
    exists (map Ok payloads ++ [Raise e]). split; [exact Hlog|].
    left. exists payloads, e. auto.
Qed.

Lemma calls_of_app (l1 l2 : list event) :
  calls_of (l1 ++ l2) = calls_of l1 ++ calls_of l2.
Proof. unfold calls_of. apply flat_map_app. Qed.

Lemma requests_of_app (l1 l2 : list event) :
  requests_of (l1 ++ l2) = requests_of l1 ++ requests_of l2.
Proof. unfold requests_of. apply flat_map_app. Qed.

Lemma calls_of_page_requests (E : Externals) (params : list (string * pyval))
    (ps : list Z) (outs : list (result (option (list movie)))) :
  calls_of (page_requests params ps outs) = [].
Proof.
  unfold page_requests. induction (combine ps outs) as [|po l IH]; [reflexivity|].
  exact IH.
Qed.


Lemma map_snd_combine_le {A B} (l : list A) (l' : list B) :
  (List.length l' <= List.length l)%nat -> map snd (combine l l') = l'.
Proof.
  revert l'. induction l as [|a l IH]; intros [|b l'] H; cbn in *;
    try reflexivity; try lia.
  f_equal. apply IH. lia.
Qed.

Lemma map_fst_combine_le {A B} (l : list A) (l' : list B) :
  (List.length l' <= List.length l)%nat ->
  map fst (combine l l') = firstn (List.length l') l.
Proof.
  revert l'. induction l as [|a l IH]; intros [|b l'] H; cbn in *;
    try reflexivity; try lia.
  f_equal. apply IH. lia.
Qed.

Lemma requests_of_page_requests (E : Externals) (params : list (string * pyval))
    (ps : list Z) (outs : list (result (option (list movie)))) :
  requests_of (page_requests params ps outs) =
  map (fun po =>
         {| req_url := BASE_URL ++ "/discover/movie";
            req_params := sent_params (dict_set String.eqb "page" (PInt (fst po)) params);
            req_outcome := snd po |})
      (combine ps outs).
Proof.
  unfold page_requests.
  induction (combine ps outs) as [|po l IH]; [reflexivity|].
  cbn. f_equal. exact IH.
Qed.

(** *** The parameters of a request *)

Lemma dict_find_absent {V} (k : string) (d : list (string * V)) :
  ~ In k (map fst d) -> dict_find String.eqb k d = None.
Proof.
  induction d as [|[k' v'] d IH]; cbn; [reflexivity|]. intros H.
  destruct (String.eqb_spec k k') as [-> | _]; [tauto|].
  apply IH. tauto.
Qed.

Lemma dict_find_filter_absent {V} (f : string * V -> bool) (k : string)
    (d : list (string * V)) :
  dict_find String.eqb k d = None -> dict_find String.eqb k (filter f d) = None.
Proof.
  induction d as [|[k' v'] d IH]; cbn; [reflexivity|].
  destruct (String.eqb k k') eqn:Hk; [discriminate|]. intros H.
  destruct (f (k', v')); cbn; [rewrite Hk|]; auto.
Qed.

(** With distinct keys, a key is sent exactly when its value is not [None],
    and with that value. *)
Lemma find_sent_params (k : string) (d : list (string * pyval)) :
  NoDup (map fst d) ->
  dict_find String.eqb k (sent_params d) =
  match dict_find String.eqb k d with
  | Some v => as_sent v
  | None => None
  end.
Proof.
  unfold sent_params, as_sent.
  induction d as [|[k' v'] d IH]; cbn; [reflexivity|]. intros Hnd.
  inversion Hnd as [|? ? Hnotin Hnd']; subst.
  destruct (String.eqb_spec k k') as [-> | Hne].
  - destruct (is_not_None v') eqn:Hv; cbn.
    + now rewrite String.eqb_refl.
    + apply dict_find_filter_absent, dict_find_absent, Hnotin.
  - destruct (is_not_None v'); cbn.
    + destruct (String.eqb_spec k k'); [contradiction|]. now apply IH.
    + now apply IH.
Qed.

Lemma base_params_page (E : Externals) (ids : list string)
    (ms c mr xr ia v : pyval) :
  dict_set String.eqb "page" v (base_params ids ms c mr xr ia)
  = base_params ids ms c mr xr ia ++ [("page", v)].
Proof. reflexivity. Qed.

Lemma base_params_keys (E : Externals) (ids : list string)
    (ms c mr xr ia v : pyval) :
  NoDup (map fst (base_params ids ms c mr xr ia ++ [("page", v)])).
Proof.
  cbn. repeat (constructor; [cbn; intuition discriminate|]). constructor.
Qed.

Lemma page_param_sent (E : Externals) (ids : list string)
    (ms c mr xr ia : pyval) (p : Z) :
  dict_find String.eqb "page"
    (sent_params (dict_set String.eqb "page" (PInt p) (base_params ids ms c mr xr ia)))
  = Some (PInt p).
Proof.
  rewrite base_params_page, find_sent_params by apply base_params_keys.
  reflexivity.
Qed.

Lemma resolve_names (E : Externals) (names : list string) :
  resolve_genres get_genre_ids (map PStr names) = Ok (matched_ids names).
Proof.
  induction names as [|n names IH]; [reflexivity|].
  cbn [map resolve_genres in_genre_map rbind]. rewrite IH. cbn [rbind].
  unfold dict_mem, matched_ids. cbn [flat_map].
  destruct (dict_find String.eqb n get_genre_ids); reflexivity.
Qed.

(** C2, counterexample. With every filter unset, the requests still carry
    [certification_country], beside the language, the sort order and
    [include_adult] at its default. *)
Lemma unset_filters_still_send_certification_country :
  hd_error (map req_params (requests_of (log (snd
    (discover_movies (E := quiet_world) (PList []) PNone PNone PNone PNone
                     PNone PNone (PBool false) (start (E := quiet_world) tt))))))
  = Some [ ("api_key", PStr "key");
           ("language", PStr "en-US");
           ("sort_by", PStr "popularity.desc");
           ("include_adult", PBool false);
           ("certification_country", PStr "US");
           ("page", PInt 1) ].
Proof. reflexivity. Qed.

Lemma sent_params_not_None (d : list (string * pyval)) :
  Forall (fun kv => snd kv <> PNone) (sent_params d).
Proof.
  apply Forall_forall. intros [k v] Hin.
  apply filter_In in Hin. destruct Hin as [_ Hv]. cbn in *.
  now destruct v.
Qed.

(** C2, amended. Every request of a search carries the parameter of
    [min_score], [certification], the runtimes and [include_adult] exactly
    when the value is not [None], and then that value; [with_genres]
    exactly when a requested name is in the catalogue; no [None] is ever
    sent; the certification country, the language, the sort order and the
    page go with every request. *)
Theorem sent_parameters :
  forall (E : Externals) (names : list string)
         (ys ye ms c mr xr ia : pyval) (st : state),
  exists evs : list event,
    log (snd (discover_movies (PList (map PStr names)) ys ye ms c mr xr ia st))
      = log st ++ evs /\
    requests_of evs <> [] /\
    Forall (fun q =>
      dict_find String.eqb "vote_average.gte" (req_params q) = as_sent ms /\
      dict_find String.eqb "certification.lte" (req_params q) = as_sent c /\
      dict_find String.eqb "with_runtime.gte" (req_params q) = as_sent mr /\
      dict_find String.eqb "with_runtime.lte" (req_params q) = as_sent xr /\
      dict_find String.eqb "include_adult" (req_params q) = as_sent ia /\
      dict_find String.eqb "with_genres" (req_params q)
        = match matched_ids names with
          | [] => None
          | ids => Some (PStr (join "," ids))
          end /\
      dict_find String.eqb "api_key" (req_params q) = as_sent API_KEY /\
      dict_find String.eqb "certification_country" (req_params q) = Some (PStr "US") /\
      dict_find String.eqb "language" (req_params q) = Some (PStr "en-US") /\
      dict_find String.eqb "sort_by" (req_params q) = Some (PStr "popularity.desc") /\
      (exists p, dict_find String.eqb "page" (req_params q) = Some (PInt p)) /\
      Forall (fun kv => snd kv <> PNone) (req_params q))
      (requests_of evs).
Proof.
  intros E names ys ye ms c mr xr ia st.
  pose proof (discover_movies_run E (PList (map PStr names)) ys ye ms c mr xr ia st) as H.
  cbn [py_iter rbind] in H. rewrite resolve_names in H.
  destruct H as (outs & Hlog & Houts).
  exists (page_requests (base_params (matched_ids names) ms c mr xr ia) pages outs).
  split; [exact Hlog|]. rewrite requests_of_page_requests. split.
  - destruct Houts as [(payloads & e & -> & _) | (payloads & -> & Hlen & _)].
    + destruct payloads; discriminate.
    + destruct payloads; [discriminate Hlen | discriminate].
  - apply Forall_forall. intros q Hq. apply in_map_iff in Hq.
    destruct Hq as ([p o] & <- & _). cbn [req_params fst].
    rewrite base_params_page.
    rewrite !find_sent_params by apply base_params_keys.
    repeat split; try reflexivity.
    + cbn. now destruct (matched_ids names).
    + exists p. reflexivity.
    + apply sent_params_not_None.
Qed.

(** C3, counterexample. The third page fails after two pages came back with
    a film each: the search raises, the two films are lost. *)
Lemma failed_page_aborts_discover :
  fst (discover_movies (E := flaky_world) (PList []) PNone PNone PNone PNone
                       PNone PNone (PBool false) (start (E := flaky_world) tt))
    = Raise (ProviderError "timeout") /\
  map req_outcome (requests_of (log (snd
    (discover_movies (E := flaky_world) (PList []) PNone PNone PNone PNone
                     PNone PNone (PBool false) (start (E := flaky_world) tt)))))
    = [ Ok (Some [film 1 None [] None]);
        Ok (Some [film 2 None [] None]);
        Raise (ProviderError "timeout") ].
Proof. split; reflexivity. Qed.

(** C3, amended. A search requests the pages 1 to 5 in this order, each
    after the one before has answered.  When the five answer, it returns
    the concatenation of their results, filtered and sorted; when one
    raises, no further page is requested and the search raises the same
    exception: the results of the pages before are not returned. *)
Theorem pages_in_order_and_failure_propagates :
  forall (E : Externals) (names : list string)
         (ys ye ms c mr xr ia : pyval) (st : state),
  exists (evs : list event) (payloads : list (option (list movie))),
    log (snd (discover_movies (PList (map PStr names)) ys ye ms c mr xr ia st))
      = log st ++ evs /\
    map (fun q => dict_find String.eqb "page" (req_params q)) (requests_of evs)
      = map (fun p => Some (PInt p))
            (firstn (List.length (requests_of evs)) pages) /\
    ((map req_outcome (requests_of evs) = map Ok payloads /\
      List.length payloads = 5%nat /\
      fst (discover_movies (PList (map PStr names)) ys ye ms c mr xr ia st)
        = post_process (PList (map PStr names)) ys ye
            (flat_map page_results payloads))
     \/
     (exists e,
        map req_outcome (requests_of evs) = map Ok payloads ++ [Raise e] /\
        (List.length payloads < 5)%nat /\
        fst (discover_movies (PList (map PStr names)) ys ye ms c mr xr ia st)
          = Raise e)).
Proof.
  intros E names ys ye ms c mr xr ia st.
  pose proof (discover_movies_run E (PList (map PStr names)) ys ye ms c mr xr ia st) as H.
  cbn [py_iter rbind] in H. rewrite resolve_names in H.
  destruct H as (outs & Hlog & Houts).
  assert (Hle : (List.length outs <= List.length pages)%nat).
  { destruct Houts as [(payloads & e & -> & Hlen & _) | (payloads & -> & Hlen & _)];
      rewrite ?length_app, length_map; cbn; lia. }
  assert (Houtcomes :
    map req_outcome (requests_of
      (page_requests (base_params (matched_ids names) ms c mr xr ia) pages outs))
    = outs).
  { rewrite requests_of_page_requests, map_map. cbn [req_outcome].
    now apply map_snd_combine_le. }
  assert (Hpages :
    map (fun q => dict_find String.eqb "page" (req_params q))
        (requests_of
           (page_requests (base_params (matched_ids names) ms c mr xr ia) pages outs))
    = map (fun p => Some (PInt p))
          (firstn (List.length (requests_of
             (page_requests (base_params (matched_ids names) ms c mr xr ia)
                            pages outs))) pages)).
  { rewrite requests_of_page_requests, length_map, map_map. cbn [req_params].
    rewrite length_combine, Nat.min_r by exact Hle.
    rewrite <- (map_fst_combine_le pages outs Hle), map_map.
    apply map_ext. intros [p o]. apply page_param_sent. }
  destruct Houts as [(payloads & e & -> & Hlen & Hr) | (payloads & -> & Hlen & Hr)].
  - eexists. exists payloads. split; [exact Hlog|]. split; [exact Hpages|].
    right. exists e. rewrite Houtcomes. auto.
  - eexists. exists payloads. split; [exact Hlog|]. split; [exact Hpages|].
    left. rewrite Houtcomes. auto.
Qed.


(** ** The year filter *)

Lemma Qle_bool_inject_Z (a b : Z) :
  Qle_bool (inject_Z a) (inject_Z b) = (a <=? b)%Z.
Proof. unfold Qle_bool, inject_Z. cbn. now rewrite !Z.mul_1_r. Qed.

Lemma truthy_PInt (z : Z) : z <> 0%Z -> truthy (PInt z) = true.
Proof. intros H. cbn. now apply Z.eqb_neq in H as ->. Qed.

(** The condition of line 103 on a movie whose date, if any, has a year. *)
Lemma year_cond_in_range (E : Externals) (ys ye : Z) (m : movie) :
  (has_date m = true -> release_year m <> None) ->
  year_cond (PInt ys) (PInt ye) m = Ok (year_in_range ys ye m).
Proof.
  unfold year_cond, year_in_range, release_year, has_date.
  destruct (release_date m) as [d|]; [|reflexivity].
  destruct (truthy (PStr d)); [|reflexivity].
  destruct (py_int (slice_to 4 d)) as [y | e]; intros H.
  - cbn. rewrite !Qle_bool_inject_Z. now destruct (ys <=? y)%Z.
  - now destruct H.
Qed.

(** ... and on one whose date has none. *)
Lemma year_cond_unparsable (E : Externals) (ys ye : pyval) (m : movie) :
  has_date m = true -> release_year m = None ->
  exists e, year_cond ys ye m = Raise e.
Proof.
  unfold year_cond, release_year, has_date.
  destruct (release_date m) as [d|]; [|discriminate].
  intros ->. destruct (py_int (slice_to 4 d)) as [y | e]; [discriminate|].
  intros _. now exists e.
Qed.

Lemma filter_r_total {A} (p : A -> result bool) (f : A -> bool) (l : list A) :
  Forall (fun x => p x = Ok (f x)) l -> filter_r p l = Ok (filter f l).
Proof.
  induction 1 as [|x l Hx _ IH]; [reflexivity|].
  cbn. rewrite Hx, IH. reflexivity.
Qed.

Lemma filter_r_raises {A} (p : A -> result bool) (l : list A) :
  Exists (fun x => exists e, p x = Raise e) l -> exists e, filter_r p l = Raise e.
Proof.
  induction 1 as [x l [e He] | x l _ [e IH]]; cbn.
  - rewrite He. now exists e.
  - destruct (p x) as [b | e']; cbn; [rewrite IH; cbn|]; eauto.
Qed.

(** C6, counterexample. A date whose first four characters are no number
    makes the filter raise; the movie is not dropped. *)
Lemma year_filter_raises_on_unparsable_date :
  year_filter (E := quiet_world) (PInt 2010) (PInt 2019)
    [film 1 (Some "2015-06-01") [] None; film 2 (Some "TBA") [] None]
  = Raise ValueError.
Proof. reflexivity. Qed.

(** C6, amended. With both bounds set and not zero, and every date that is
    present starting with a year, the filter keeps exactly the movies whose
    year lies between the bounds, both included, and drops those without a
    date; a date with no year makes it raise; with a bound unset it keeps
    every movie. *)
Theorem year_filter_range :
  forall (E : Externals) (ys ye : Z) (results : list movie),
    ys <> 0%Z -> ye <> 0%Z ->
    (Forall (fun m => has_date m = true -> release_year m <> None) results ->
     year_filter (PInt ys) (PInt ye) results
       = Ok (filter (year_in_range ys ye) results)) /\
    (forall m y, release_year m = Some y ->
       (year_in_range ys ye m = true <-> (ys <= y <= ye)%Z)) /\
    (forall m, has_date m = false -> year_in_range ys ye m = false) /\
    (Exists (fun m => has_date m = true /\ release_year m = None) results ->
     exists e, year_filter (PInt ys) (PInt ye) results = Raise e) /\
    (forall v, year_filter PNone v results = Ok results) /\
    (forall v, year_filter v PNone results = Ok results).
Proof.
  intros E ys ye results Hys Hye.
  unfold year_filter. rewrite (truthy_PInt ys Hys), (truthy_PInt ye Hye).
  cbn [andb]. split; [|split; [|split; [|split; [|split]]]].
  - intros Hall. apply filter_r_total.
    eapply Forall_impl; [|exact Hall]. intros m. apply year_cond_in_range.
  - intros m y Hy. unfold year_in_range. rewrite Hy.
    rewrite andb_true_iff, !Z.leb_le. reflexivity.
  - intros m Hm. unfold year_in_range, release_year, has_date in *.
    destruct (release_date m) as [d|]; [|reflexivity]. now rewrite Hm.
  - intros Hex. apply filter_r_raises.
    eapply Exists_impl; [|exact Hex]. intros m [Hd Hy].
    now apply year_cond_unparsable.
  - intros v. reflexivity.
  - intros v. cbn. now rewrite andb_false_r.
Qed.

(** C6, the dates of the specification: 2015-06-01 passes 2010-2019 and
    fails 2020-2025; a movie without a date is dropped. *)
Lemma year_filter_2015 :
  2010%Z <> 0%Z /\ 2019%Z <> 0%Z /\
  year_filter (E := quiet_world) (PInt 2010) (PInt 2019)
    [film 1 (Some "2015-06-01") [] None; film 2 None [] None;
     film 3 (Some "2021-01-01") [] None; film 4 (Some EmptyString) [] None]
  = Ok [film 1 (Some "2015-06-01") [] None] /\
  year_filter (E := quiet_world) (PInt 2020) (PInt 2025)
    [film 1 (Some "2015-06-01") [] None] = Ok [].
Proof.
  split; [discriminate|]. split; [discriminate|]. split.
  - refine (eq_trans
      (proj1 (year_filter_range quiet_world 2010 2019 _ _ _) _) _).
    + discriminate.
    + discriminate.
    + repeat constructor; cbn; discriminate.
    + reflexivity.
  - refine (eq_trans
      (proj1 (year_filter_range quiet_world 2020 2025 _ _ _) _) _).
    + discriminate.
    + discriminate.
    + repeat constructor; cbn; discriminate.
    + reflexivity.
Defined.


(** ** The ranking *)

Lemma insert_desc_perm (m : movie) (l : list movie) :
  Permutation (m :: l) (insert_desc m l).
Proof.
  induction l as [|x l IH]; cbn; [reflexivity|].
  destruct (Qle_bool (popularity_key x) (popularity_key m)); [reflexivity|].
  rewrite perm_swap. now apply perm_skip.
Qed.

Lemma sort_by_popularity_perm (l : list movie) :
  Permutation l (sort_by_popularity l).
Proof.
  induction l as [|m l IH]; cbn; [reflexivity|].
  rewrite <- insert_desc_perm. now apply perm_skip.
Qed.

Lemma insert_desc_sorted (m : movie) (l : list movie) :
  StronglySorted ranked_before l -> StronglySorted ranked_before (insert_desc m l).
Proof.
  induction 1 as [|x l Hl IH Hx]; cbn.
  - repeat constructor.
  - destruct (Qle_bool (popularity_key x) (popularity_key m)) eqn:Hle.
    + apply Qle_bool_iff in Hle.
      constructor; [now constructor|]. constructor; [exact Hle|].
      eapply Forall_impl; [|exact Hx]. unfold ranked_before. intros y Hy.
      now apply Qle_trans with (popularity_key x).
    + constructor; [exact IH|].
      assert (Hlt : (popularity_key m < popularity_key x)%Q).
      { apply Qnot_le_lt. intros Hc. apply Qle_bool_iff in Hc. congruence. }
      apply Forall_forall. intros y Hy.
      apply (Permutation_in _ (Permutation_sym (insert_desc_perm m l))) in Hy.
      destruct Hy as [<- | Hy].
      * now apply Qlt_le_weak.
      * revert y Hy. now apply Forall_forall.
Qed.

Lemma sort_by_popularity_sorted (l : list movie) :
  StronglySorted ranked_before (sort_by_popularity l).
Proof.
  induction l as [|m l IH]; cbn; [constructor|]. now apply insert_desc_sorted.
Qed.

(** An insertion only jumps over movies that are strictly more popular, so
    it leaves the movies of any one popularity in their order. *)
Lemma insert_desc_stable (q : Q) (m : movie) (l : list movie) :
  filter (same_popularity q) (insert_desc m l)
  = filter (same_popularity q) (m :: l).
Proof.
  induction l as [|x l IH]; [reflexivity|]. cbn [insert_desc].
  destruct (Qle_bool (popularity_key x) (popularity_key m)) eqn:Hle;
    [reflexivity|].
  cbn [filter] in *. rewrite IH.
  destruct (same_popularity q x) eqn:Hx, (same_popularity q m) eqn:Hm;
    try reflexivity.
  exfalso. unfold same_popularity in *.
  apply Qeq_bool_iff in Hx, Hm.
  assert (Hc : (popularity_key x <= popularity_key m)%Q).
  { rewrite Hx, Hm. apply Qle_refl. }
  apply Qle_bool_iff in Hc. congruence.
Qed.

Lemma sort_by_popularity_stable (q : Q) (l : list movie) :
  filter (same_popularity q) (sort_by_popularity l)
  = filter (same_popularity q) l.
Proof.
  induction l as [|m l IH]; [reflexivity|].
  cbn [sort_by_popularity fold_right].
  fold (sort_by_popularity l). rewrite insert_desc_stable.
  cbn [filter]. now rewrite IH.
Qed.

(** *** What the filters keep *)

Lemma filter_r_is_filter {A} (p : A -> result bool) (l l' : list A) :
  filter_r p l = Ok l' ->
  l' = filter (fun x => match p x with Ok true => true | _ => false end) l.
Proof.
  revert l'. induction l as [|x l IH]; cbn; intros l' H.
  - now injection H as <-.
  - destruct (p x) as [b | e]; cbn in H; [|discriminate].
    destruct (filter_r p l) as [r | e]; cbn in H; [|discriminate].
    injection H as <-. rewrite (IH r eq_refl). now destruct b.
Qed.

Lemma filter_twice {A} (f g : A -> bool) (l : list A) :
  filter g (filter f l) = filter (fun x => f x && g x) l.
Proof.
  induction l as [|x l IH]; [reflexivity|]. cbn.
  destruct (f x); cbn; [destruct (g x)|]; now rewrite IH.
Qed.

Lemma filter_all {A} (l : list A) : filter (fun _ => true) l = l.
Proof. induction l as [|x l IH]; cbn; congruence. Qed.

(** The filters and the sort only select and reorder. *)
Lemma post_process_selects (E : Externals) (genres ys ye : pyval)
    (results l : list movie) :
  post_process genres ys ye results = Ok l ->
  exists keep : movie -> bool, l = sort_by_popularity (filter keep results).
Proof.
  unfold post_process, year_filter, genre_filter. intros H.
  assert (Hy : exists k1, forall r,
    (if truthy ys && truthy ye then filter_r (year_cond ys ye) results
     else Ok results) = Ok r -> r = filter k1 results).
  { destruct (truthy ys && truthy ye).
    - eexists. intros r Hr. exact (filter_r_is_filter _ _ _ Hr).
    - exists (fun _ => true). intros r Hr. injection Hr as <-.
      now rewrite filter_all. }
  destruct Hy as (k1 & Hk1).
  destruct (if truthy ys && truthy ye then _ else _) as [r1 | e];
    cbn [rbind] in H; [|discriminate].
  rewrite (Hk1 r1 eq_refl) in H.
  destruct (truthy genres).
  - destruct (py_iter genres) as [gs | e]; cbn [rbind] in H; [|discriminate].
    injection H as <-. rewrite filter_twice. now eexists.
  - cbn [rbind] in H. injection H as <-. now eexists.
Qed.

(** C9. The list a search returns is ranked by descending popularity, a
    missing popularity counting as 0, and movies of equal popularity stand
    in the order in which the provider returned them. *)
Theorem discover_ranks_by_popularity :
  forall (E : Externals) (genres ys ye ms c mr xr ia : pyval)
         (st : state) (l : list movie),
    fst (discover_movies genres ys ye ms c mr xr ia st) = Ok l ->
    exists (evs : list event) (payloads : list (option (list movie)))
           (keep : movie -> bool),
      log (snd (discover_movies genres ys ye ms c mr xr ia st)) = log st ++ evs /\
      map req_outcome (requests_of evs) = map Ok payloads /\
      let survivors := filter keep (flat_map page_results payloads) in
      Permutation survivors l /\
      StronglySorted ranked_before l /\
      (forall q, filter (same_popularity q) l
                 = filter (same_popularity q) survivors) /\
      (forall m, popularity m = None -> popularity_key m = 0%Q).
Proof.
  intros E genres ys ye ms c mr xr ia st l Hrun.
  pose proof (discover_movies_run E genres ys ye ms c mr xr ia st) as H.
  destruct (rbind (py_iter genres) (resolve_genres get_genre_ids)) as [ids | e].
  - destruct H as (outs & Hlog & [(payloads & e & _ & _ & Hr)
                                 | (payloads & -> & Hlen & Hr)]).
    + congruence.
    + rewrite Hrun in Hr. symmetry in Hr.
      apply post_process_selects in Hr. destruct Hr as (keep & ->).
      eexists. exists payloads, keep. split; [exact Hlog|]. split.
      * rewrite requests_of_page_requests, map_map. cbn [req_outcome].
        apply map_snd_combine_le. rewrite length_map, Hlen. cbn. lia.
      * cbv zeta. split; [apply sort_by_popularity_perm|].
        split; [apply sort_by_popularity_sorted|].
        split; [intros q; apply sort_by_popularity_stable|].
        intros m Hm. unfold popularity_key. now rewrite Hm.
  - rewrite H in Hrun. discriminate.
Qed.

(** C9, the popularities of the specification, 3.2, 9.1, 9.1 and 1.0 in
    the provider's order, and a movie without popularity between a positive
    and a negative one. *)
Lemma discover_ranks_example :
  fst (discover_movies (E := ranked_world) (PList []) PNone PNone PNone PNone
                       PNone PNone (PBool false) (start (E := ranked_world) tt))
    = Ok [ film 2 None [] (Some (91 # 10)%Q); film 3 None [] (Some (91 # 10)%Q);
           film 1 None [] (Some (32 # 10)%Q); film 4 None [] (Some 1%Q) ] /\
  sort_by_popularity
    [ film 5 None [] None; film 6 None [] (Some (-1)%Q); film 7 None [] (Some (1 # 2)%Q) ]
    = [ film 7 None [] (Some (1 # 2)%Q); film 5 None [] None; film 6 None [] (Some (-1)%Q) ] /\
  exists (evs : list event) (payloads : list (option (list movie)))
         (keep : movie -> bool),
    log (snd (discover_movies (E := ranked_world) (PList []) PNone PNone PNone
                PNone PNone PNone (PBool false) (start (E := ranked_world) tt)))
      = log (start (E := ranked_world) tt) ++ evs /\
    map req_outcome (requests_of evs) = map Ok payloads /\
    let survivors := filter keep (flat_map page_results payloads) in
    Permutation survivors
      [ film 2 None [] (Some (91 # 10)%Q); film 3 None [] (Some (91 # 10)%Q);
        film 1 None [] (Some (32 # 10)%Q); film 4 None [] (Some 1%Q) ] /\
    StronglySorted ranked_before
      [ film 2 None [] (Some (91 # 10)%Q); film 3 None [] (Some (91 # 10)%Q);
        film 1 None [] (Some (32 # 10)%Q); film 4 None [] (Some 1%Q) ] /\
    (forall q, filter (same_popularity q)
                 [ film 2 None [] (Some (91 # 10)%Q); film 3 None [] (Some (91 # 10)%Q);
                   film 1 None [] (Some (32 # 10)%Q); film 4 None [] (Some 1%Q) ]
               = filter (same_popularity q) survivors) /\
    (forall m, popularity m = None -> popularity_key m = 0%Q).
Proof.
  split; [reflexivity|]. split; [reflexivity|].
  exact (discover_ranks_by_popularity ranked_world (PList []) PNone PNone PNone
           PNone PNone PNone (PBool false) (start (E := ranked_world) tt) _ eq_refl).
Defined.


(** ** Genres the catalogue does not know *)

Section DictFacts.
Context {K V : Type} (eqb : K -> K -> bool).
Hypothesis eqb_spec : forall a b : K, reflect (a = b) (eqb a b).

Lemma dict_find_set (k k' : K) (v' : V) (d : list (K * V)) :
  dict_find eqb k (dict_set eqb k' v' d)
  = if eqb k k' then Some v' else dict_find eqb k d.
Proof.
  induction d as [|[k1 v1] d IH]; cbn; [reflexivity|].
  destruct (eqb_spec k' k1) as [-> | Hne]; cbn.
  - now destruct (eqb k k1).
  - rewrite IH. destruct (eqb_spec k k1) as [-> | Hk]; [|reflexivity].
    destruct (eqb_spec k1 k'); [congruence | reflexivity].
Qed.

Lemma dict_find_fold (k : K) (v : V) (items acc : list (K * V)) :
  dict_find eqb k (fold_left (fun d kv => dict_set eqb (fst kv) (snd kv) d) items acc)
    = Some v ->
  In (k, v) items \/ dict_find eqb k acc = Some v.
Proof.
  revert acc. induction items as [|[k1 v1] items IH]; cbn; intros acc H; [auto|].
  destruct (IH _ H) as [Hin | Hacc]; [auto|].
  rewrite dict_find_set in Hacc. cbn in Hacc.
  destruct (eqb_spec k k1) as [-> | _]; [|auto].
  injection Hacc as ->. auto.
Qed.

(** A dict built from pairs holds values of these pairs only. *)
Lemma dict_of_items_In (k : K) (v : V) (items : list (K * V)) :
  dict_find eqb k (dict_of_items eqb items) = Some v -> In (k, v) items.
Proof.
  intros H. destruct (dict_find_fold k v items [] H) as [Hin | Hnil]; [exact Hin|].
  discriminate.
Qed.

Lemma dict_find_In (k : K) (v : V) (d : list (K * V)) :
  dict_find eqb k d = Some v -> In (k, v) d.
Proof.
  induction d as [|[k1 v1] d IH]; cbn; [discriminate|].
  destruct (eqb_spec k k1) as [-> | _]; intros H.
  - injection H as ->. auto.
  - auto.
Qed.

Lemma In_dict_mem (k : K) (v : V) (d : list (K * V)) :
  In (k, v) d -> dict_mem eqb k d = true.
Proof.
  unfold dict_mem. induction d as [|[k1 v1] d IH]; cbn; [tauto|].
  intros [H | H].
  - injection H as -> ->. now destruct (eqb_spec k k).
  - destruct (eqb k k1); [reflexivity|]. auto.
Qed.
End DictFacts.

(** The names the reverse map yields are names of the catalogue. *)
Lemma reverse_genre_map_matched (E : Externals) (i : Z) (n : string) :
  dict_find Z.eqb i reverse_genre_map = Some n -> matched n = true.
Proof.
  unfold reverse_genre_map, matched. intros H.
  apply (dict_of_items_In Z.eqb Z.eqb_spec) in H.
  apply in_map_iff in H. destruct H as ([n' i'] & Heq & Hin).
  cbn in Heq. injection Heq as -> ->.
  exact (In_dict_mem String.eqb String.eqb_spec _ _ _ Hin).
Qed.

(** No movie is found under a name the catalogue does not know. *)
Lemma unmatched_name_finds_nothing (E : Externals) (n : string) (ids : list Z) :
  matched n = false ->
  existsb (eq_name (PStr n)) (map (fun i => dict_find Z.eqb i reverse_genre_map) ids)
  = false.
Proof.
  intros Hn. induction ids as [|i ids IH]; [reflexivity|]. cbn [map existsb].
  rewrite IH, orb_false_r.
  destruct (dict_find Z.eqb i reverse_genre_map) as [n'|] eqn:Hi; [|reflexivity].
  cbn. destruct (String.eqb_spec n n') as [<- | _]; [|reflexivity].
  apply reverse_genre_map_matched in Hi. congruence.
Qed.

Lemma genre_cond_matched (E : Externals) (names : list string) (m : movie) :
  genre_cond (map PStr names) m = genre_cond (map PStr (filter matched names)) m.
Proof.
  unfold genre_cond. induction names as [|n names IH]; [reflexivity|].
  cbn [map filter existsb]. destruct (matched n) eqn:Hn.
  - cbn [map existsb]. now rewrite IH.
  - now rewrite (unmatched_name_finds_nothing E n _ Hn), IH.
Qed.

Lemma matched_ids_matched (E : Externals) (names : list string) :
  matched_ids (filter matched names) = matched_ids names.
Proof.
  unfold matched_ids. induction names as [|n names IH]; [reflexivity|].
  cbn [filter flat_map]. unfold matched at 1, dict_mem.
  destruct (dict_find String.eqb n get_genre_ids) eqn:Hn.
  - cbn [flat_map]. now rewrite Hn, IH.
  - exact IH.
Qed.

Lemma existsb_filter_nonempty {A} (f : A -> bool) (l : list A) :
  existsb f l = true -> filter f l <> [].
Proof.
  induction l as [|x l IH]; cbn; [discriminate|].
  destruct (f x); [discriminate | exact IH].
Qed.

(** C7, counterexample. Under the single name Bogus, unknown to the
    catalogue, nothing is found, while the same search without any genre
    finds the films of the five pages. *)
Lemma unknown_genre_alone_empties_the_result :
  fst (discover_movies (E := action_world) (PList [PStr "Bogus"]) PNone PNone
         PNone PNone PNone PNone (PBool false) (start (E := action_world) tt))
    = Ok [] /\
  fst (discover_movies (E := action_world) (PList []) PNone PNone
         PNone PNone PNone PNone (PBool false) (start (E := action_world) tt))
    = Ok [ film 1 None [28%Z] None; film 1 None [28%Z] None;
           film 1 None [28%Z] None; film 1 None [28%Z] None;
           film 1 None [28%Z] None ].
Proof. split; reflexivity. Qed.

(** C7, amended. When at least one requested name is in the catalogue, the
    names that are not are dropped: the search sends the same requests and
    returns the same list as the search for the known names alone. *)
Theorem unmatched_genres_dropped :
  forall (E : Externals) (names : list string)
         (ys ye ms c mr xr ia : pyval) (st : state),
    existsb matched names = true ->
    discover_movies (PList (map PStr names)) ys ye ms c mr xr ia st
    = discover_movies (PList (map PStr (filter matched names))) ys ye ms c mr xr ia st.
Proof.
  intros E names ys ye ms c mr xr ia st Hex.
  pose proof (existsb_filter_nonempty _ _ Hex) as Hkept.
  assert (Hnames : names <> []) by (intros ->; discriminate).
  unfold discover_movies, bind, lift. cbn [py_iter].
  rewrite !resolve_names, matched_ids_matched.
  destruct (fetch_pages _ pages [] st) as [[results | e] st1]; [|reflexivity].
  f_equal. unfold post_process.
  destruct (year_filter ys ye results) as [r1 | e]; [|reflexivity].
  cbn [rbind]. unfold genre_filter. rewrite !truthy_names.
  destruct names as [|n names]; [contradiction|].
  destruct (filter matched (n :: names)) as [|k kept] eqn:Hk; [contradiction|].
  cbn [List.length Nat.eqb negb py_iter rbind]. rewrite <- Hk.
  do 2 f_equal. apply filter_ext. intros m. apply genre_cond_matched.
Qed.

(** C7, Action with a name the catalogue does not know. *)
Lemma unmatched_genres_dropped_example :
  existsb (matched (E := action_world)) ["Action"; "Bogus"] = true /\
  discover_movies (E := action_world) (PList [PStr "Action"; PStr "Bogus"])
    PNone PNone PNone PNone PNone PNone (PBool false) (start (E := action_world) tt)
  = discover_movies (E := action_world) (PList [PStr "Action"])
    PNone PNone PNone PNone PNone PNone (PBool false) (start (E := action_world) tt).
Proof.
  split; [reflexivity|].
  exact (unmatched_genres_dropped action_world ["Action"; "Bogus"]
           PNone PNone PNone PNone PNone PNone (PBool false)
           (start (E := action_world) tt) eq_refl).
Defined.


(** Names the catalogue does not know, alone: the requests carry no genre
    and the post-filter keeps nothing. *)
Lemma unknown_genres_alone_find_nothing (E : Externals) (names : list string)
    (ys ye ms c mr xr ia : pyval) (st : state) (l : list movie) :
  names <> [] ->
  filter matched names = [] ->
  fst (discover_movies (PList (map PStr names)) ys ye ms c mr xr ia st) = Ok l ->
  l = [].
Proof.
  intros Hnames Hnone Hrun.
  pose proof (discover_movies_run E (PList (map PStr names)) ys ye ms c mr xr ia st) as H.
  cbn [py_iter rbind] in H. rewrite resolve_names in H.
  destruct H as (outs & _ & [(payloads & e & _ & _ & Hr) | (payloads & _ & _ & Hr)]);
    [congruence|].
  rewrite Hrun in Hr. unfold post_process in Hr.
  destruct (year_filter ys ye _) as [r1 | e]; [|discriminate].
  cbn [rbind] in Hr. unfold genre_filter in Hr. rewrite truthy_names in Hr.
  destruct names as [|n names]; [contradiction|].
  cbn [List.length Nat.eqb negb py_iter rbind] in Hr.
  injection Hr as ->. clear Hrun.
  replace (filter (genre_cond (map PStr (n :: names))) r1) with (@nil movie);
    [reflexivity|].
  symmetry. induction r1 as [|m r1 IH]; [reflexivity|].
  cbn [filter]. rewrite genre_cond_matched, Hnone. exact IH.
Qed.

(** ** The fallback chain *)






(** The scenario of the specification: Action, a minimum score and a
    minimum runtime, no certification, and nothing found at any stage. *)
Lemma fallback_scenario :
  map call_stage (calls_of (log (snd
    (recommend_handler (E := quiet_world)
       {| v_genres := PList [PStr "Action"]; v_y_start := PNone; v_y_end := PNone;
          v_min_score := PFloat (85 # 10)%Q; v_min_runtime := PInt 90;
          v_max_runtime := PNone |}
       (Some (PDict [])) (PBool false) (start (E := quiet_world) tt)))))
  = [Full; DropScore; DropRuntime; SingleGenre].
Proof. reflexivity. Qed.



(** ** The text between the fences *)

Local Open Scope string_scope.

Lemma sapp_nil_r (s : string) : s ++ EmptyString = s.
Proof. induction s as [|c s IH]; cbn; congruence. Qed.

Lemma sapp_assoc (a b c : string) : (a ++ b) ++ c = a ++ (b ++ c).
Proof. induction a as [|x a IH]; cbn; congruence. Qed.

Lemma prefix_nil (s : string) : prefix EmptyString s = true.
Proof. now destruct s. Qed.

Lemma prefix_app (s r : string) : prefix s (s ++ r) = true.
Proof.
  induction s as [|c s IH]; cbn; [apply prefix_nil|].
  now destruct (ascii_dec c c).
Qed.

Lemma prefix_app_l (sub s w : string) :
  prefix sub s = true -> prefix sub (s ++ w) = true.
Proof.
  revert s. induction sub as [|c sub IH]; intros s; [intros _; apply prefix_nil|].
  destruct s as [|x s]; cbn; [discriminate|].
  destruct (ascii_dec c x); [apply IH | discriminate].
Qed.

Lemma contains_here (sub s : string) :
  prefix sub s = true -> contains sub s = true.
Proof. intros H. destruct s; cbn [contains]; now rewrite H. Qed.

Lemma contains_later (sub : string) (c : ascii) (r : string) :
  contains sub r = true -> contains sub (String c r) = true.
Proof. intros H. cbn [contains]. rewrite H. apply orb_true_r. Qed.

Lemma contains_cons_false (sub : string) (c : ascii) (r : string) :
  contains sub (String c r) = false ->
  prefix sub (String c r) = false /\ contains sub r = false.
Proof. cbn [contains]. intros H. now apply orb_false_iff in H. Qed.

Lemma contains_app_r (sub w s : string) :
  contains sub s = true -> contains sub (w ++ s) = true.
Proof.
  intros H. induction w as [|c w IH]; [exact H|].
  cbn [append]. now apply contains_later.
Qed.

Lemma contains_app_l (sub s w : string) :
  contains sub s = true -> contains sub (s ++ w) = true.
Proof.
  induction s as [|c s IH]; intros H.
  - cbn in H. rewrite orb_false_r in H. destruct sub; [|discriminate].
    apply contains_here, prefix_nil.
  - cbn [contains] in H. apply orb_true_iff in H. destruct H as [H | H].
    + apply contains_here. now apply (prefix_app_l sub (String c s) w).
    + cbn [append]. apply contains_later. now apply IH.
Qed.

Lemma lstrip_suffix (p : ascii -> bool) (s : string) :
  exists w, s = w ++ lstrip_with p s.
Proof.
  induction s as [|c s [w IH]]; [now exists EmptyString|]. cbn.
  destruct (p c).
  - exists (String c w). cbn. now rewrite <- IH.
  - now exists EmptyString.
Qed.

Lemma rstrip_prefix (p : ascii -> bool) (s : string) :
  exists w, s = rstrip_with p s ++ w.
Proof.
  induction s as [|c s [w IH]]; [now exists EmptyString|]. cbn.
  destruct (rstrip_with p s) as [|x r] eqn:Hr.
  - destruct (p c).
    + exists (String c s). reflexivity.
    + exists w. cbn. now rewrite IH at 1.
  - exists w. cbn. now rewrite IH at 1.
Qed.

(** What is found in the stripped text is in the text. *)
Lemma contains_strip (sub s : string) :
  contains sub (strip s) = true -> contains sub s = true.
Proof.
  unfold strip. intros H.
  destruct (lstrip_suffix is_space (rstrip_with is_space s)) as [w1 H1].
  destruct (rstrip_prefix is_space s) as [w2 H2].
  rewrite H2. apply contains_app_l. rewrite H1. now apply contains_app_r.
Qed.

(** *** [split] *)

Lemma split_go_skip (sep w r cur : string) :
  split_go sep (w ++ r) (String.length w) cur = split_go sep r 0 cur.
Proof.
  induction w as [|c w IH]; [reflexivity|]. exact IH.
Qed.

Lemma split_go_sep (c : ascii) (sep r cur : string) :
  split_go (String c sep) (String c sep ++ r) 0 cur
  = cur :: split_go (String c sep) r 0 EmptyString.
Proof.
  cbn [append split_go].
  change (String c (sep ++ r)) with (String c sep ++ r).
  rewrite prefix_app.
  replace (String.length (String c sep) - 1)%nat with (String.length sep)
    by (cbn; lia).
  now rewrite split_go_skip.
Qed.

Lemma split_go_other (sep : string) (c : ascii) (r cur : string) :
  prefix sep (String c r) = false ->
  split_go sep (String c r) 0 cur = split_go sep r 0 (cur ++ String c EmptyString).
Proof. intros H. cbn [split_go]. now rewrite H. Qed.

Lemma split_go_none (sep s cur : string) :
  contains sep s = false -> split_go sep s 0 cur = [cur ++ s].
Proof.
  revert cur. induction s as [|c s IH]; intros cur H.
  - cbn. now rewrite sapp_nil_r.
  - apply contains_cons_false in H. destruct H as [Hp Hc].
    rewrite split_go_other by exact Hp.
    rewrite IH by exact Hc. now rewrite sapp_assoc.
Qed.

Lemma split_go_not_nil (sep s : string) (skip : nat) (cur : string) :
  split_go sep s skip cur <> [].
Proof.
  revert skip cur. induction s as [|c s IH]; intros skip cur; cbn [split_go];
    [discriminate|].
  destruct skip; [|apply IH].
  destruct (prefix sep (String c s)); [discriminate | apply IH].
Qed.

Lemma last_cons_not_nil {A} (x : A) (l : list A) (dflt : A) :
  l <> [] -> last (x :: l) dflt = last l dflt.
Proof. destruct l; [contradiction | reflexivity]. Qed.

(** The comparisons of characters in a hypothesis on [prefix], one by
    one. *)
Ltac decide_chars H :=
  repeat match type of H with
         | context [ascii_dec ?a ?b] =>
             let e := fresh "e" in
             let n := fresh "n" in
             destruct (ascii_dec a b) as [e | n]; cbn [prefix] in H;
             [ first [discriminate e | subst | idtac]
             | first [discriminate H | exfalso; apply n; reflexivity] ]
         end.

(** The marker cannot overlap itself: where it starts inside what stands
    before another marker, it ends there too. *)
Lemma json_fence_unbordered (pre rest : string) :
  prefix json_fence (pre ++ json_fence ++ rest) = true ->
  pre = EmptyString \/ exists pre', pre = json_fence ++ pre'.
Proof.
  unfold json_fence.
  destruct pre as [|c1 [|c2 [|c3 [|c4 [|c5 [|c6 [|c7 pre']]]]]]];
    cbn [append prefix]; intros H; decide_chars H; try discriminate H.
  - now left.
  - right. now exists pre'.
Qed.

(** After the last marker. *)
Lemma split_json_fence_last (rest : string) :
  contains json_fence rest = false ->
  forall (n : nat) (pre cur : string),
    (String.length pre <= n)%nat ->
    last (split_go json_fence (pre ++ json_fence ++ rest) 0 cur) EmptyString = rest.
Proof.
  intros Hrest. induction n as [|n IH]; intros pre cur Hlen.
  - destruct pre; [|cbn in Hlen; lia]. cbn [append]. unfold json_fence at 1 2.
    rewrite split_go_sep. fold json_fence.
    now rewrite (split_go_none _ _ _ Hrest).
  - destruct pre as [|c pre].
    + apply (IH EmptyString cur). cbn. lia.
    + destruct (prefix json_fence (String c pre ++ json_fence ++ rest)) eqn:Hp.
      * apply json_fence_unbordered in Hp. destruct Hp as [Hp | [pre' Hp]];
          [discriminate|].
        rewrite Hp, sapp_assoc. unfold json_fence at 1 2.
        rewrite split_go_sep. fold json_fence.
        rewrite last_cons_not_nil by apply split_go_not_nil.
        apply IH. rewrite Hp in Hlen. unfold json_fence in Hlen. cbn in Hlen. lia.
      * cbn [append] in *. rewrite split_go_other by exact Hp.
        apply IH. cbn in Hlen. lia.
Qed.

(** A fence that starts in [body] followed by anything starts in [body]
    followed by two backquotes. *)
Lemma fence_starts_inside (c : ascii) (b post : string) :
  prefix fence (String c (b ++ post)) = true ->
  prefix fence (String c (b ++ "``")) = true.
Proof.
  unfold fence. destruct b as [|b1 [|b2 b]];
    cbn [append prefix]; intros H; decide_chars H; try discriminate H;
    cbn [prefix]; repeat (destruct (ascii_dec _ _); [|congruence]);
    first [reflexivity | apply prefix_nil].
Qed.

(** Up to the first fence. *)
Lemma split_fence_first (post : string) :
  post = EmptyString \/ prefix fence post = true ->
  forall body cur : string,
    contains fence (body ++ "``") = false ->
    hd EmptyString (split_go fence (body ++ post) 0 cur) = cur ++ body.
Proof.
  intros Hpost. induction body as [|c body IH]; intros cur Hbody.
  - cbn [append]. rewrite sapp_nil_r. destruct Hpost as [-> | Hp]; [reflexivity|].
    destruct post as [|x post]; [discriminate|].
    cbn [split_go]. now rewrite Hp.
  - cbn [append] in *. apply contains_cons_false in Hbody.
    destruct Hbody as [Hp Hc].
    rewrite split_go_other.
    + rewrite IH by exact Hc. now rewrite sapp_assoc.
    + destruct (prefix fence (String c (body ++ post))) eqn:Hq; [|reflexivity].
      apply fence_starts_inside in Hq. congruence.
Qed.

(** Line 66 on a text with a marker: after the last marker, [body] runs
    to the first fence, or to the end of the text when no fence follows. *)
Lemma extract_json_text_marked (text pre body post : string) :
  strip text = pre ++ json_fence ++ body ++ post ->
  contains json_fence (body ++ post) = false ->
  (post = EmptyString /\ contains fence body = false) \/
  (prefix fence post = true /\ contains fence (body ++ "``") = false) ->
  extract_json_text text = body.
Proof.
  intros Hstrip Hlast Hend. unfold extract_json_text.
  assert (Hin : contains json_fence text = true).
  { apply contains_strip. rewrite Hstrip.
    apply contains_app_r, contains_here, prefix_app. }
  rewrite Hin, Hstrip. unfold split.
  rewrite (split_json_fence_last _ Hlast (String.length pre) pre EmptyString)
    by apply Nat.le_refl.
  destruct Hend as [[-> Hbody] | [Hpost Hbody]].
  - rewrite sapp_nil_r. now rewrite (split_go_none fence body EmptyString Hbody).
  - now rewrite (split_fence_first post (or_intror Hpost) body EmptyString Hbody).
Qed.

(** *** Every text with a marker has its block *)

Lemma prefix_split (a b : string) :
  prefix a b = true -> exists rest, b = a ++ rest.
Proof.
  revert b. induction a as [|x a IH]; intros b H; [now exists b|].
  destruct b as [|y b]; [discriminate|]. cbn [prefix] in H.
  destruct (ascii_dec x y) as [->|]; [|discriminate].
  destruct (IH b H) as [rest ->]. now exists rest.
Qed.

Lemma contains_suffix_false (sub w s : string) :
  contains sub (w ++ s) = false -> contains sub s = false.
Proof.
  intros H. destruct (contains sub s) eqn:Hs; [|reflexivity].
  now rewrite (contains_app_r sub w s Hs) in H.
Qed.

(** The last occurrence of a separator. *)
Lemma last_occurrence (x : ascii) (sep s : string) :
  contains (String x sep) s = true ->
  exists pre rest,
    s = pre ++ String x sep ++ rest /\ contains (String x sep) rest = false.
Proof.
  induction s as [|c r IH]; [discriminate|]. intros H.
  destruct (contains (String x sep) r) eqn:Hr.
  - destruct (IH eq_refl) as (pre & rest & -> & Hrest).
    now exists (String c pre), rest.
  - cbn [contains] in H. rewrite Hr, orb_false_r in H.
    destruct (prefix_split _ _ H) as [rest Hs].
    exists EmptyString, rest. split; [exact Hs|].
    cbn [append] in Hs. injection Hs as _ ->.
    now apply (contains_suffix_false _ sep rest).
Qed.

(** A fence that starts in [body] followed by two backquotes starts in
    [body] followed by a fence. *)
Lemma fence_starts_before (c : ascii) (b post : string) :
  prefix fence post = true ->
  prefix fence (String c (b ++ "``")) = true ->
  prefix fence (String c (b ++ post)) = true.
Proof.
  intros Hpost. destruct (prefix_split _ _ Hpost) as [rest ->]. unfold fence.
  destruct b as [|b1 [|b2 b]];
    cbn [append prefix]; intros H; decide_chars H; try discriminate H;
    cbn [prefix]; repeat (destruct (ascii_dec _ _); [|congruence]);
    first [reflexivity | apply prefix_nil].
Qed.

(** The first fence. *)
Lemma first_fence (rest : string) :
  contains fence rest = true ->
  exists body post,
    rest = body ++ post /\ prefix fence post = true /\
    contains fence (body ++ "``") = false.
Proof.
  induction rest as [|c r IH]; [discriminate|]. intros H.
  destruct (prefix fence (String c r)) eqn:Hp.
  - exists EmptyString, (String c r). now repeat split.
  - cbn [contains] in H. rewrite Hp in H. cbn [orb] in H.
    destruct (IH H) as (body & post & -> & Hpost & Hbody).
    exists (String c body), post. repeat split; [exact Hpost|].
    cbn [append contains]. rewrite Hbody, orb_false_r.
    destruct (prefix fence (String c (body ++ "``"))) eqn:Hq; [|reflexivity].
    now rewrite (fence_starts_before c body post Hpost Hq) in Hp.
Qed.

(** Stripping leaves what has no blank in it where it was. *)
Lemma prefix_rstrip (p : ascii -> bool) (sub s : string) :
  (forall c, In c (list_ascii_of_string sub) -> p c = false) ->
  sub <> EmptyString ->
  prefix sub s = true -> prefix sub (rstrip_with p s) = true.
Proof.
  revert s. induction sub as [|x sub IH]; intros s Hall Hne H; [contradiction|].
  destruct s as [|c r]; [discriminate|]. cbn [prefix] in H.
  destruct (ascii_dec x c) as [<-|]; [|discriminate].
  assert (Hx : p x = false) by (apply Hall; now left).
  cbn [rstrip_with]. destruct sub as [|y sub].
  - destruct (rstrip_with p r); [rewrite Hx|]; cbn [prefix];
      destruct (ascii_dec x x); try congruence; apply prefix_nil.
  - assert (Hr : prefix (String y sub) (rstrip_with p r) = true).
    { apply IH; [|discriminate | exact H].
      intros c Hc. apply Hall. now right. }
    destruct (rstrip_with p r) as [|z r']; [discriminate|].
    cbn [prefix]. destruct (ascii_dec x x); [|congruence].
    exact Hr.
Qed.

Lemma contains_rstrip (p : ascii -> bool) (sub s : string) :
  (forall c, In c (list_ascii_of_string sub) -> p c = false) ->
  sub <> EmptyString ->
  contains sub s = true -> contains sub (rstrip_with p s) = true.
Proof.
  intros Hall Hne. induction s as [|c r IH]; intros H.
  - destruct sub; [contradiction | discriminate].
  - cbn [contains] in H. apply orb_true_iff in H. destruct H as [H | H].
    + apply contains_here. now apply prefix_rstrip.
    + specialize (IH H). cbn [rstrip_with].
      destruct (rstrip_with p r) as [|z r'].
      * destruct sub; [contradiction | discriminate].
      * now apply contains_later.
Qed.

Lemma contains_lstrip (p : ascii -> bool) (x : ascii) (sub s : string) :
  p x = false ->
  contains (String x sub) s = true ->
  contains (String x sub) (lstrip_with p s) = true.
Proof.
  intros Hx. induction s as [|c r IH]; intros H; [exact H|].
  cbn [lstrip_with]. destruct (p c) eqn:Hc; [|exact H].
  apply IH. cbn [contains] in H. apply orb_true_iff in H.
  destruct H as [H | H]; [|exact H].
  cbn [prefix] in H. destruct (ascii_dec x c); [congruence | discriminate].
Qed.

Lemma marker_survives_strip (text : string) :
  contains json_fence text = true -> contains json_fence (strip text) = true.
Proof.
  intros H. unfold strip, json_fence. apply contains_lstrip; [reflexivity|].
  apply contains_rstrip; [|discriminate | exact H].
  intros c Hc. cbn in Hc.
  repeat (destruct Hc as [<- | Hc]; [reflexivity|]). contradiction.
Qed.

(** A text that contains the marker is made of what stands before the last
    marker, the marker, and a block that runs to the first fence or to the
    end of the text. *)
Lemma marked_text_decomposes (text : string) :
  contains json_fence text = true ->
  exists pre body post,
    strip text = pre ++ json_fence ++ body ++ post /\
    contains json_fence (body ++ post) = false /\
    ((post = EmptyString /\ contains fence body = false) \/
     (prefix fence post = true /\ contains fence (body ++ "``") = false)).
Proof.
  intros H. apply marker_survives_strip in H. unfold json_fence in H.
  destruct (last_occurrence _ _ _ H) as (pre & rest & Hs & Hrest).
  fold json_fence in Hs, Hrest.
  destruct (contains fence rest) eqn:Hf.
  - destruct (first_fence rest Hf) as (body & post & -> & Hpost & Hbody).
    exists pre, body, post. auto.
  - exists pre, rest, EmptyString. rewrite sapp_nil_r. auto.
Qed.

Local Open Scope list_scope.

(** C8, counterexample. Of two blocks tagged json the last one is parsed,
    not the first; a fenced block without the tag is not looked into, the
    raw text is parsed and fails. *)
Lemma last_block_taken_and_plain_fence_missed :
  loads_model_text (E := quiet_world) (PStr two_blocks)
    = Ok (PDict [("genres", PList [PStr "Drama"])]) /\
  json_decode (spec_json_text two_blocks)
    = Ok (PDict [("genres", PList [PStr "Comedy"])]) /\
  loads_model_text (E := quiet_world) (PStr plain_block)
    = Raise JSONDecodeError /\
  json_decode (spec_json_text plain_block)
    = Ok (PDict [("genres", PList [PStr "Comedy"])]).
Proof. repeat split; reflexivity. Qed.

Local Open Scope string_scope.

(** C8, amended. When the text contains the marker of a block tagged
    json, what is parsed as JSON is what stands, in the text stripped of
    blanks, between the last such marker and the first fence after it, or
    the end of the text when no fence follows (backquotes at the end that
    make no fence are parsed with the rest), and every text with the marker
    is of that form; a text without the marker is parsed as it is, fenced
    or not. *)
Theorem json_text_after_last_marker :
  forall (E : Externals) (text : string),
    (forall pre body post : string,
       strip text = pre ++ json_fence ++ body ++ post ->
       contains json_fence (body ++ post) = false ->
       (post = EmptyString /\ contains fence body = false) \/
       (prefix fence post = true /\ contains fence (body ++ "``") = false) ->
       loads_model_text (PStr text) = json_loads body) /\
    (contains json_fence text = true ->
     exists pre body post : string,
       strip text = pre ++ json_fence ++ body ++ post /\
       contains json_fence (body ++ post) = false /\
       ((post = EmptyString /\ contains fence body = false) \/
        (prefix fence post = true /\ contains fence (body ++ "``") = false))) /\
    (contains json_fence text = false ->
     loads_model_text (PStr text) = json_loads text).
Proof.
  intros E text. split; [|split].
  - intros pre body post Hstrip Hlast Hend. cbn [loads_model_text].
    now rewrite (extract_json_text_marked text pre body post).
  - apply marked_text_decomposes.
  - intros Hraw. cbn [loads_model_text]. unfold extract_json_text.
    now rewrite Hraw.
Qed.

(** C8, the answer of the specification: one block tagged json, holding
    the genres and a null year.  The same block cut inside its closing
    fence is parsed with the two backquotes left of it, and fails. *)
Lemma fenced_comedy_parsed :
  strip fenced_comedy
    = EmptyString ++ json_fence ++ (nl ++ comedy_json ++ nl) ++ fence /\
  loads_model_text (E := comedy_world) (PStr fenced_comedy)
    = Ok (PDict [("genres", PList [PStr "Comedy"]); ("year_start", PNone)]) /\
  map (dget [("genres", PList [PStr "Comedy"]); ("year_start", PNone)])
      ["year_start"; "year_end"; "min_score"; "min_runtime"; "max_runtime";
       "certification"]
    = [PNone; PNone; PNone; PNone; PNone; PNone] /\
  gpt_parse_prompt (E := comedy_world) "a comedy" (start (E := comedy_world) tt)
    = (Ok (PDict [("genres", PList [PStr "Comedy"]); ("year_start", PNone)]),
       state_of (E := comedy_world) tt [Model "a comedy"]) /\
  strip cut_block
    = EmptyString ++ json_fence ++ (nl ++ comedy_json ++ nl ++ "``") ++ EmptyString /\
  loads_model_text (E := comedy_world) (PStr cut_block) = Raise JSONDecodeError.
Proof.
  split; [reflexivity|]. split; [|split; [reflexivity|split; [reflexivity|split]]].
  - exact (eq_trans
             (proj1 (json_text_after_last_marker comedy_world fenced_comedy)
                    EmptyString (nl ++ comedy_json ++ nl) fence
                    eq_refl eq_refl (or_intror (conj eq_refl eq_refl)))
             eq_refl).
  - reflexivity.
  - exact (eq_trans
             (proj1 (json_text_after_last_marker comedy_world cut_block)
                    EmptyString (nl ++ comedy_json ++ nl ++ "``") EmptyString
                    eq_refl eq_refl (or_introl (conj eq_refl eq_refl)))
             eq_refl).
Defined.

Local Open Scope list_scope.

(* ================================================================= *)
(** * More of the script *)

(** ** Building and reading the genre dictionaries *)

Section DictBuild.
Context {K V : Type} (eqb : K -> K -> bool).
Hypothesis eqb_spec : forall a b : K, reflect (a = b) (eqb a b).

Lemma dict_find_None_iff (k : K) (d : list (K * V)) :
  dict_find eqb k d = None <-> ~ In k (map fst d).
Proof.
  induction d as [|[k1 v1] d IH]; cbn; [tauto|].
  destruct (eqb_spec k k1) as [-> | Hne].
  - split; [discriminate | tauto].
  - rewrite IH. split; [intros H [Hk | Hk]; [congruence | tauto] | tauto].
Qed.

Lemma dict_set_new (k : K) (v : V) (d : list (K * V)) :
  ~ In k (map fst d) -> dict_set eqb k v d = d ++ [(k, v)].
Proof.
  induction d as [|[k1 v1] d IH]; cbn; [reflexivity|]. intros H.
  destruct (eqb_spec k k1) as [-> | _]; [tauto|].
  rewrite IH by tauto. reflexivity.
Qed.

Lemma dict_set_keys (k : K) (v : V) (d : list (K * V)) :
  map fst (dict_set eqb k v d)
  = if dict_mem eqb k d then map fst d else map fst d ++ [k].
Proof.
  unfold dict_mem. induction d as [|[k1 v1] d IH]; cbn; [reflexivity|].
  destruct (eqb_spec k k1) as [-> | _]; cbn; [reflexivity|].
  rewrite IH. now destruct (dict_find eqb k d).
Qed.

Lemma dict_set_NoDup (k : K) (v : V) (d : list (K * V)) :
  NoDup (map fst d) -> NoDup (map fst (dict_set eqb k v d)).
Proof.
  intros Hd. rewrite dict_set_keys. unfold dict_mem.
  destruct (dict_find eqb k d) eqn:Hk; [exact Hd|].
  apply dict_find_None_iff in Hk.
  apply NoDup_app; [exact Hd | repeat constructor; cbn; tauto |].
  intros x Hx [<- | []]. contradiction.
Qed.

Lemma fold_dict_set_NoDup (items acc : list (K * V)) :
  NoDup (map fst acc) ->
  NoDup (map fst (fold_left (fun d kv => dict_set eqb (fst kv) (snd kv) d) items acc)).
Proof.
  revert acc. induction items as [|[k v] items IH]; intros acc Hacc; [exact Hacc|].
  cbn. apply IH. now apply dict_set_NoDup.
Qed.

Lemma fold_dict_set_other (k : K) (items acc : list (K * V)) :
  ~ In k (map fst items) ->
  dict_find eqb k (fold_left (fun d kv => dict_set eqb (fst kv) (snd kv) d) items acc)
  = dict_find eqb k acc.
Proof.
  revert acc. induction items as [|[k1 v1] items IH]; intros acc H; [reflexivity|].
  cbn in *. rewrite IH by tauto. rewrite (dict_find_set eqb eqb_spec).
  destruct (eqb_spec k k1) as [-> | _]; [tauto | reflexivity].
Qed.

(** The pair read last for a key is the one the dictionary holds. *)
Lemma dict_of_items_last (k : K) (v : V) (before after : list (K * V)) :
  ~ In k (map fst after) ->
  dict_find eqb k (dict_of_items eqb (before ++ (k, v) :: after)) = Some v.
Proof.
  intros H. unfold dict_of_items. rewrite fold_left_app. cbn.
  rewrite fold_dict_set_other by exact H.
  rewrite (dict_find_set eqb eqb_spec). now destruct (eqb_spec k k).
Qed.

Lemma last_pair_of_key (k : K) (items : list (K * V)) :
  In k (map fst items) ->
  exists before v after,
    items = before ++ (k, v) :: after /\ ~ In k (map fst after).
Proof.
  induction items as [|[k1 v1] items IH]; cbn; [tauto|]. intros H.
  assert (Hdec : In k (map fst items) \/ ~ In k (map fst items)).
  { clear -eqb_spec. induction items as [|[k2 v2] items IH]; cbn; [tauto|].
    destruct (eqb_spec k2 k); tauto. }
  destruct Hdec as [Hin | Hout].
  - destruct (IH Hin) as (before & v & after & -> & Hafter).
    now exists ((k1, v1) :: before), v, after.
  - destruct H as [-> | H]; [|contradiction].
    now exists [], v1, items.
Qed.

Lemma dict_of_items_mem (k : K) (items : list (K * V)) :
  dict_mem eqb k (dict_of_items eqb items) = true <-> In k (map fst items).
Proof.
  unfold dict_mem. split.
  - destruct (dict_find eqb k (dict_of_items eqb items)) as [v|] eqn:Hk;
      [intros _ | discriminate].
    apply (dict_of_items_In eqb eqb_spec) in Hk.
    apply in_map_iff. now exists (k, v).
  - intros H. destruct (last_pair_of_key k items H) as (before & v & after & -> & Ha).
    now rewrite dict_of_items_last.
Qed.

(** Pairs with distinct keys make the dictionary that lists them. *)
Lemma fold_dict_set_distinct (items acc : list (K * V)) :
  NoDup (map fst (acc ++ items)) ->
  fold_left (fun d kv => dict_set eqb (fst kv) (snd kv) d) items acc = acc ++ items.
Proof.
  revert acc. induction items as [|[k v] items IH]; intros acc H; cbn.
  - now rewrite app_nil_r.
  - assert (Hk : ~ In k (map fst acc)).
    { rewrite map_app in H. cbn in H. apply NoDup_remove_2 in H.
      rewrite in_app_iff in H. tauto. }
    rewrite dict_set_new by exact Hk.
    rewrite IH; rewrite <- app_assoc; [reflexivity | exact H].
Qed.

Lemma dict_of_items_distinct (items : list (K * V)) :
  NoDup (map fst items) -> dict_of_items eqb items = items.
Proof. intros H. now apply (fold_dict_set_distinct items []). Qed.

Lemma dict_find_distinct (k : K) (v : V) (d : list (K * V)) :
  NoDup (map fst d) -> In (k, v) d -> dict_find eqb k d = Some v.
Proof.
  induction d as [|[k1 v1] d IH]; cbn; [tauto|]. intros Hd [H | H].
  - injection H as -> ->. now destruct (eqb_spec k k).
  - inversion Hd as [|? ? Hnot Hd']; subst.
    destruct (eqb_spec k k1) as [-> | _]; [|now apply IH].
    exfalso. apply Hnot. apply in_map_iff. now exists (k1, v).
Qed.
End DictBuild.

(** X1. [get_genre_ids] holds each name of the provider's listing once, and
    under a name the id of the last entry of the listing with that name;
    it holds no other name. *)
Theorem get_genre_ids_lookup :
  forall (E : Externals) (name : string),
    NoDup (map fst get_genre_ids) /\
    (dict_mem String.eqb name get_genre_ids = true
     <-> In name (map fst genre_listing)) /\
    (forall i, dict_find String.eqb name get_genre_ids = Some i ->
               In (name, i) genre_listing) /\
    (forall before i after,
       genre_listing = before ++ (name, i) :: after ->
       ~ In name (map fst after) ->
       dict_find String.eqb name get_genre_ids = Some i).
Proof.
  intros E name. unfold get_genre_ids. split; [|split; [|split]].
  - apply (fold_dict_set_NoDup String.eqb String.eqb_spec). constructor.
  - apply (dict_of_items_mem String.eqb String.eqb_spec).
  - intros i. apply (dict_of_items_In String.eqb String.eqb_spec).
  - intros before i after -> Hafter.
    now apply (dict_of_items_last String.eqb String.eqb_spec).
Qed.

(** With names and ids that are not repeated in the listing, both
    dictionaries are the listing, read one way and the other. *)
Lemma genre_maps_of_listing (E : Externals) :
  NoDup (map fst genre_listing) ->
  NoDup (map snd genre_listing) ->
  get_genre_ids = genre_listing /\
  reverse_genre_map = map (fun kv => (snd kv, fst kv)) genre_listing.
Proof.
  intros Hn Hi. unfold reverse_genre_map, get_genre_ids.
  rewrite (dict_of_items_distinct String.eqb String.eqb_spec _ Hn).
  split; [reflexivity|].
  apply (dict_of_items_distinct Z.eqb Z.eqb_spec).
  now rewrite map_map.
Qed.

Lemma reverse_lookup_iff (E : Externals) (n : string) (i : Z) :
  NoDup (map fst genre_listing) ->
  NoDup (map snd genre_listing) ->
  (dict_find Z.eqb i reverse_genre_map = Some n <-> In (n, i) genre_listing).
Proof.
  intros Hn Hi. destruct (genre_maps_of_listing E Hn Hi) as [_ ->]. split.
  - intros H. apply (dict_find_In Z.eqb Z.eqb_spec) in H.
    apply in_map_iff in H. destruct H as ([n' i'] & Heq & Hin).
    cbn in Heq. now injection Heq as -> ->.
  - intros H. apply (dict_find_distinct Z.eqb Z.eqb_spec).
    + now rewrite map_map.
    + apply in_map_iff. now exists (n, i).
Qed.

Lemma forward_lookup_iff (E : Externals) (n : string) (i : Z) :
  NoDup (map fst genre_listing) ->
  NoDup (map snd genre_listing) ->
  (dict_find String.eqb n get_genre_ids = Some i <-> In (n, i) genre_listing).
Proof.
  intros Hn Hi. destruct (genre_maps_of_listing E Hn Hi) as [-> _]. split.
  - apply (dict_find_In String.eqb String.eqb_spec).
  - now apply (dict_find_distinct String.eqb String.eqb_spec).
Qed.

(** X2. When no name and no id is repeated in the provider's listing, the
    dictionary of line 76 and the reverse dictionary of line 106 are
    inverse of each other: a name leads to an id exactly when the id leads
    back to the name, and exactly for the pairs of the listing. *)
Theorem genre_maps_round_trip :
  forall (E : Externals) (n : string) (i : Z),
    NoDup (map fst genre_listing) ->
    NoDup (map snd genre_listing) ->
    (dict_find String.eqb n get_genre_ids = Some i <-> In (n, i) genre_listing) /\
    (dict_find Z.eqb i reverse_genre_map = Some n
     <-> dict_find String.eqb n get_genre_ids = Some i).
Proof.
  intros E n i Hn Hi. split.
  - now apply forward_lookup_iff.
  - rewrite (reverse_lookup_iff E n i Hn Hi).
    symmetry. now apply forward_lookup_iff.
Qed.

(** X2 on the catalogue of Action and Comedy. *)
Lemma genre_maps_round_trip_example :
  NoDup (map fst (genre_listing (Externals := action_world))) /\
  NoDup (map snd (genre_listing (Externals := action_world))) /\
  dict_find Z.eqb 35%Z (reverse_genre_map (E := action_world)) = Some "Comedy".
Proof.
  assert (Hn : NoDup (map fst (genre_listing (Externals := action_world)))).
  { repeat constructor; cbn; intuition discriminate. }
  assert (Hi : NoDup (map snd (genre_listing (Externals := action_world)))).
  { repeat constructor; cbn; intuition discriminate. }
  split; [exact Hn|]. split; [exact Hi|].
  apply (proj2 (genre_maps_round_trip action_world "Comedy" 35%Z Hn Hi)).
  reflexivity.
Defined.

Lemma eq_name_true (n : string) (x : option string) :
  eq_name (PStr n) x = true <-> x = Some n.
Proof.
  destruct x as [n'|]; cbn; [|split; discriminate].
  destruct (String.eqb_spec n n') as [-> | Hne]; split; congruence.
Qed.

(** The condition of line 109 without the dictionaries. *)
Lemma genre_cond_any (E : Externals) (names : list string) (m : movie) :
  NoDup (map fst genre_listing) ->
  NoDup (map snd genre_listing) ->
  (genre_cond (map PStr names) m = true
   <-> exists n i, In n names /\ In (n, i) genre_listing /\ In i (movie_genre_ids m)).
Proof.
  intros Hn Hi. unfold genre_cond. fold (movie_genre_ids m).
  rewrite existsb_exists. split.
  - intros (g & Hg & Hex). apply in_map_iff in Hg. destruct Hg as (n & <- & Hin).
    apply existsb_exists in Hex. destruct Hex as (x & Hx & Heq).
    apply eq_name_true in Heq. subst x.
    apply in_map_iff in Hx. destruct Hx as (i & Hfind & Hi').
    exists n, i. repeat split; [exact Hin | | exact Hi'].
    now apply (reverse_lookup_iff E n i Hn Hi).
  - intros (n & i & Hin & Hpair & Hi').
    exists (PStr n). split; [now apply in_map|].
    apply existsb_exists. exists (Some n). split; [|now apply eq_name_true].
    apply in_map_iff. exists i. split; [|exact Hi'].
    now apply (reverse_lookup_iff E n i Hn Hi).
Qed.

(** X3. With a listing that repeats no name and no id, and genres
    requested, the genre filter keeps, in their order, exactly the movies
    of which at least one genre id belongs to a requested name; a movie
    without [genre_ids] is dropped. *)
Theorem genre_filter_keeps_any_requested :
  forall (E : Externals) (names : list string) (results : list movie),
    NoDup (map fst genre_listing) ->
    NoDup (map snd genre_listing) ->
    names <> [] ->
    genre_filter (PList (map PStr names)) results
      = Ok (filter (genre_cond (map PStr names)) results) /\
    (forall m, genre_cond (map PStr names) m = true
       <-> exists n i, In n names /\ In (n, i) genre_listing
                       /\ In i (movie_genre_ids m)) /\
    (forall m, genre_ids m = None -> genre_cond (map PStr names) m = false).
Proof.
  intros E names results Hn Hi Hnames. split; [|split].
  - unfold genre_filter. rewrite truthy_names.
    destruct names; [contradiction | reflexivity].
  - intros m. now apply genre_cond_any.
  - intros m Hm. destruct (genre_cond (map PStr names) m) eqn:Hc; [|reflexivity].
    apply (genre_cond_any E names m Hn Hi) in Hc.
    destruct Hc as (n & i & _ & _ & Hin).
    unfold movie_genre_ids in Hin. rewrite Hm in Hin. contradiction.
Qed.

(** X3 on an action film, a film of an unknown genre and a film without
    genre ids, Comedy or Action being asked for. *)
Lemma genre_filter_example :
  NoDup (map fst (genre_listing (Externals := action_world))) /\
  NoDup (map snd (genre_listing (Externals := action_world))) /\
  genre_filter (E := action_world) (PList [PStr "Comedy"; PStr "Action"])
    [film 1 None [99%Z; 28%Z] None; film 2 None [99%Z] None; film_without_genres 3]
  = Ok [film 1 None [99%Z; 28%Z] None].
Proof.
  assert (Hn : NoDup (map fst (genre_listing (Externals := action_world)))).
  { repeat constructor; cbn; intuition discriminate. }
  assert (Hi : NoDup (map snd (genre_listing (Externals := action_world)))).
  { repeat constructor; cbn; intuition discriminate. }
  split; [exact Hn|]. split; [exact Hi|].
  refine (eq_trans
    (proj1 (genre_filter_keeps_any_requested action_world ["Comedy"; "Action"]
              [film 1 None [99%Z; 28%Z] None; film 2 None [99%Z] None;
               film_without_genres 3] Hn Hi _)) eq_refl).
  discriminate.
Defined.

(** ** More on a search *)

(** X4. Whatever its arguments, a search adds to the log nothing but
    requests to the discover endpoint, and these carry the same parameters
    but for the page; when the genres cannot be iterated, it sends nothing
    and raises. *)
Theorem search_requests_differ_in_page_only :
  forall (E : Externals) (genres ys ye ms c mr xr ia : pyval) (st : state),
  exists (evs : list event) (common : list (string * pyval)),
    log (snd (discover_movies genres ys ye ms c mr xr ia st)) = log st ++ evs /\
    Forall (fun ev => exists p o,
              ev = Request (BASE_URL ++ "/discover/movie")
                           (common ++ [("page", PInt p)]) o) evs /\
    (forall e, py_iter genres = Raise e ->
               evs = [] /\
               fst (discover_movies genres ys ye ms c mr xr ia st) = Raise e).
Proof.
  intros E genres ys ye ms c mr xr ia st.
  pose proof (discover_movies_run E genres ys ye ms c mr xr ia st) as H.
  destruct (py_iter genres) as [gs | e0] eqn:Hiter; cbn [rbind] in H.
  - destruct (resolve_genres get_genre_ids gs) as [ids | e1].
    + destruct H as (outs & Hlog & _).
      exists (page_requests (base_params ids ms c mr xr ia) pages outs),
             (sent_params (base_params ids ms c mr xr ia)).
      split; [exact Hlog|]. split; [|discriminate].
      apply Forall_forall. intros ev Hev. unfold page_requests in Hev.
      apply in_map_iff in Hev. destruct Hev as ([p o] & <- & _).
      exists p, o. unfold page_request. cbn [fst snd].
      rewrite base_params_page. unfold sent_params. now rewrite filter_app.
    + exists [], []. rewrite H. cbn. rewrite app_nil_r.
      split; [reflexivity|]. split; [constructor | discriminate].
  - exists [], []. rewrite H. cbn. rewrite app_nil_r.
    split; [reflexivity|]. split; [constructor|].
    intros e He. injection He as <-. now split.
Qed.

(** Values that are names unknown to the catalogue resolve to no id and
    select no movie. *)
Lemma unknown_values_select_nothing (E : Externals) (gs : list pyval) :
  Forall (fun g => exists n, g = PStr n /\ matched n = false) gs ->
  resolve_genres get_genre_ids gs = Ok [] /\
  forall m, genre_cond gs m = false.
Proof.
  induction 1 as [|g gs (n & -> & Hn) _ [IHr IHc]]; [now split|]. split.
  - cbn [resolve_genres in_genre_map rbind]. rewrite IHr. cbn [rbind].
    unfold matched in Hn. now rewrite Hn.
  - intros m. specialize (IHc m). unfold genre_cond in *. cbn [existsb].
    now rewrite (unmatched_name_finds_nothing E n _ Hn), IHc.
Qed.

Lemma filter_none {A} (f : A -> bool) (l : list A) :
  (forall x, f x = false) -> filter f l = [].
Proof.
  intros H. induction l as [|x l IH]; [reflexivity|]. cbn. now rewrite H.
Qed.

(** X5. Genres given as one string, as a model may answer, are read
    character by character: unless the catalogue has a name of one
    character, no genre reaches the provider and the search keeps no movie
    at all. *)
Theorem genres_as_a_string_find_nothing :
  forall (E : Externals) (s : string) (ys ye ms c mr xr ia : pyval) (st : state),
    s <> EmptyString ->
    (forall n, In n (map fst genre_listing) -> String.length n <> 1%nat) ->
    fst (discover_movies (PStr s) ys ye ms c mr xr ia st) = Ok []
    \/ exists e, fst (discover_movies (PStr s) ys ye ms c mr xr ia st) = Raise e.
Proof.
  intros E s ys ye ms c mr xr ia st Hs Hnames.
  assert (Hchars : Forall (fun g => exists n, g = PStr n /\ matched n = false)
                     (map (fun a => PStr (String a EmptyString))
                          (list_ascii_of_string s))).
  { apply Forall_forall. intros g Hg. apply in_map_iff in Hg.
    destruct Hg as (a & <- & _). eexists. split; [reflexivity|].
    unfold matched, get_genre_ids.
    destruct (dict_mem String.eqb (String a EmptyString)
                (dict_of_items String.eqb genre_listing)) eqn:Hm; [|reflexivity].
    apply (dict_of_items_mem String.eqb String.eqb_spec) in Hm.
    now apply Hnames in Hm. }
  destruct (unknown_values_select_nothing E _ Hchars) as [Hres Hcond].
  pose proof (discover_movies_run E (PStr s) ys ye ms c mr xr ia st) as H.
  cbn [py_iter rbind] in H. rewrite Hres in H.
  destruct H as (outs & _ & [(payloads & e & _ & _ & Hr) | (payloads & _ & _ & Hr)]).
  - right. now exists e.
  - rewrite Hr. unfold post_process.
    destruct (year_filter ys ye _) as [r1 | e]; [|right; now exists e].
    left. cbn [rbind]. unfold genre_filter.
    assert (Ht : truthy (PStr s) = true).
    { cbn. destruct s; [contradiction | reflexivity]. }
    rewrite Ht. cbn [py_iter rbind]. now rewrite (filter_none _ _ Hcond).
Qed.

(** X5 on the word Action, a name of the catalogue, with a provider that
    has an action film on every page. *)
Lemma genres_as_a_string_example :
  "Action" <> EmptyString /\
  (fst (discover_movies (E := action_world) (PStr "Action") PNone PNone PNone
          PNone PNone PNone (PBool false) (start (E := action_world) tt)) = Ok []
   \/ exists e,
        fst (discover_movies (E := action_world) (PStr "Action") PNone PNone PNone
               PNone PNone PNone (PBool false) (start (E := action_world) tt))
        = Raise e).
Proof.
  split; [discriminate|].
  apply (genres_as_a_string_find_nothing action_world "Action").
  - discriminate.
  - cbn. intros n [<- | [<- | []]]; discriminate.
Defined.

(** X6. Without genres and without both year bounds, nothing is filtered
    out: the search returns all the movies of the five pages. *)
Theorem unfiltered_search_returns_every_movie :
  forall (E : Externals) (ys ye ms c mr xr ia : pyval) (st : state)
         (l : list movie),
    truthy ys && truthy ye = false ->
    fst (discover_movies (PList []) ys ye ms c mr xr ia st) = Ok l ->
    exists (evs : list event) (payloads : list (option (list movie))),
      log (snd (discover_movies (PList []) ys ye ms c mr xr ia st)) = log st ++ evs /\
      map req_outcome (requests_of evs) = map Ok payloads /\
      Permutation (flat_map page_results payloads) l.
Proof.
  intros E ys ye ms c mr xr ia st l Hyears Hrun.
  pose proof (discover_movies_run E (PList []) ys ye ms c mr xr ia st) as H.
  cbn [py_iter rbind resolve_genres] in H.
  destruct H as (outs & Hlog & [(payloads & e & _ & _ & Hr)
                               | (payloads & -> & Hlen & Hr)]); [congruence|].
  eexists. exists payloads. split; [exact Hlog|]. split.
  - rewrite requests_of_page_requests, map_map. cbn [req_outcome].
    apply map_snd_combine_le. rewrite length_map, Hlen. cbn. lia.
  - rewrite Hrun in Hr. unfold post_process, year_filter in Hr.
    rewrite Hyears in Hr. cbn in Hr. injection Hr as ->.
    apply sort_by_popularity_perm.
Qed.

(** X6 on the four films of the ranking example. *)
Lemma unfiltered_search_example :
  exists (evs : list event) (payloads : list (option (list movie))),
    log (snd (discover_movies (E := ranked_world) (PList []) PNone PNone PNone
                PNone PNone PNone (PBool false) (start (E := ranked_world) tt)))
      = log (start (E := ranked_world) tt) ++ evs /\
    map req_outcome (requests_of evs) = map Ok payloads /\
    Permutation (flat_map page_results payloads)
      [ film 2 None [] (Some (91 # 10)%Q); film 3 None [] (Some (91 # 10)%Q);
        film 1 None [] (Some (32 # 10)%Q); film 4 None [] (Some 1%Q) ].
Proof.
  exact (unfiltered_search_returns_every_movie ranked_world PNone PNone PNone
           PNone PNone PNone (PBool false) (start (E := ranked_world) tt) _
           eq_refl eq_refl).
Defined.

Lemma insert_desc_front (m : movie) (l : list movie) :
  Forall (ranked_before m) l -> insert_desc m l = m :: l.
Proof.
  destruct l as [|x l]; [reflexivity|]. intros H.
  apply Forall_inv in H. unfold ranked_before in H.
  apply Qle_bool_iff in H. cbn. now rewrite H.
Qed.

Lemma sort_by_popularity_ranked (l : list movie) :
  StronglySorted ranked_before l -> sort_by_popularity l = l.
Proof.
  induction 1 as [|m l Hl IH Hm]; [reflexivity|].
  cbn [sort_by_popularity fold_right]. fold (sort_by_popularity l).
  rewrite IH. now apply insert_desc_front.
Qed.

Lemma StronglySorted_filter {A} (R : A -> A -> Prop) (f : A -> bool) (l : list A) :
  StronglySorted R l -> StronglySorted R (filter f l).
Proof.
  induction 1 as [|x l Hl IH Hx]; cbn; [constructor|].
  destruct (f x); [|exact IH]. constructor; [exact IH|].
  apply Forall_forall. intros y Hy. apply filter_In in Hy.
  destruct Hy as [Hy _]. rewrite Forall_forall in Hx. now apply Hx.
Qed.

(** X7. Results that arrive ranked by descending popularity, as the
    provider is asked to send them, leave the filters and the sort in the
    order in which they arrived. *)
Theorem ranked_results_keep_their_order :
  forall (E : Externals) (genres ys ye : pyval) (results l : list movie),
    StronglySorted ranked_before results ->
    post_process genres ys ye results = Ok l ->
    exists keep : movie -> bool, l = filter keep results.
Proof.
  intros E genres ys ye results l Hsorted Hrun.
  destruct (post_process_selects E genres ys ye results l Hrun) as (keep & ->).
  exists keep. apply sort_by_popularity_ranked.
  now apply StronglySorted_filter.
Qed.

(** X7 on two ranked films. *)
Lemma ranked_results_example :
  StronglySorted ranked_before
    [film 2 None [] (Some (91 # 10)%Q); film 1 None [] (Some (32 # 10)%Q)] /\
  exists keep : movie -> bool,
    [film 2 None [] (Some (91 # 10)%Q); film 1 None [] (Some (32 # 10)%Q)]
    = filter keep
        [film 2 None [] (Some (91 # 10)%Q); film 1 None [] (Some (32 # 10)%Q)].
Proof.
  assert (Hs : StronglySorted ranked_before
                 [film 2 None [] (Some (91 # 10)%Q); film 1 None [] (Some (32 # 10)%Q)]).
  { repeat constructor. unfold ranked_before, Qle. cbn. lia. }
  split; [exact Hs|].
  exact (ranked_results_keep_their_order quiet_world (PList []) PNone PNone
           _ _ Hs eq_refl).
Defined.

(** ** More on the year filter *)

(** X8. Bounds in the wrong order keep no movie: with a first year after
    the last one, and dates that all begin with a year, the filter returns
    the empty list. *)
Theorem year_filter_inverted_bounds :
  forall (E : Externals) (ys ye : Z) (results : list movie),
    ys <> 0%Z -> ye <> 0%Z -> (ye < ys)%Z ->
    Forall (fun m => has_date m = true -> release_year m <> None) results ->
    year_filter (PInt ys) (PInt ye) results = Ok [].
Proof.
  intros E ys ye results Hys Hye Hlt Hall. unfold year_filter.
  rewrite (truthy_PInt ys Hys), (truthy_PInt ye Hye). cbn [andb].
  rewrite (filter_r_total (year_cond (PInt ys) (PInt ye)) (year_in_range ys ye)).
  - f_equal. apply filter_none. intros m. unfold year_in_range.
    destruct (release_year m) as [y|]; [|reflexivity].
    apply andb_false_iff. rewrite !Z.leb_gt. lia.
  - eapply Forall_impl; [|exact Hall]. intros m. apply year_cond_in_range.
Qed.

(** X8 on 2019 before 2010. *)
Lemma year_filter_inverted_example :
  2019%Z <> 0%Z /\ (2010 < 2019)%Z /\
  year_filter (E := quiet_world) (PInt 2019) (PInt 2010)
    [film 1 (Some "2015-06-01") [] None; film 2 None [] None] = Ok [].
Proof.
  split; [discriminate|]. split; [reflexivity|].
  apply (year_filter_inverted_bounds quiet_world 2019 2010).
  - discriminate.
  - discriminate.
  - reflexivity.
  - repeat constructor; cbn; discriminate.
Defined.

(** X9. A year given as text, as a model may answer, is truthy but cannot
    be compared with a number: as soon as one movie has a date, the filter
    raises a type error. *)
Theorem year_filter_text_bound_raises :
  forall (E : Externals) (s : string) (ye : pyval) (results : list movie),
    s <> EmptyString ->
    truthy ye = true ->
    Forall (fun m => has_date m = true -> release_year m <> None) results ->
    Exists (fun m => has_date m = true) results ->
    year_filter (PStr s) ye results = Raise TypeError.
Proof.
  intros E s ye results Hs Hye Hall Hex. unfold year_filter.
  assert (Ht : truthy (PStr s) = true).
  { cbn. destruct s; [contradiction | reflexivity]. }
  rewrite Ht, Hye. cbn [andb].
  induction results as [|m results IH]; [inversion Hex|].
  cbn [filter_r]. inversion Hall as [|? ? Hm Hall']; subst.
  unfold year_cond at 1. unfold has_date, release_year in Hm.
  destruct (release_date m) as [d|] eqn:Hd.
  - destruct (truthy (PStr d)) eqn:Hdate.
    + destruct (py_int (slice_to 4 d)) as [y | e]; [reflexivity|].
      now destruct Hm.
    + cbn [rbind]. rewrite IH; [reflexivity | exact Hall' |].
      inversion Hex as [? ? Hhd | ? ? Htl]; subst; [|exact Htl].
      unfold has_date in Hhd. rewrite Hd in Hhd. congruence.
  - cbn [rbind]. rewrite IH; [reflexivity | exact Hall' |].
    inversion Hex as [? ? Hhd | ? ? Htl]; subst; [|exact Htl].
    unfold has_date in Hhd. rewrite Hd in Hhd. discriminate.
Qed.

(** X9 on the years 2010 and 2019 given as text. *)
Lemma year_filter_text_bound_example :
  "2010" <> EmptyString /\
  year_filter (E := quiet_world) (PStr "2010") (PStr "2019")
    [film 2 None [] None; film 1 (Some "2015-06-01") [] None] = Raise TypeError.
Proof.
  split; [discriminate|].
  apply (year_filter_text_bound_raises quiet_world "2010" (PStr "2019")).
  - discriminate.
  - reflexivity.
  - repeat constructor; cbn; discriminate.
  - apply Exists_cons_tl, Exists_cons_hd. reflexivity.
Defined.

(** ** What the statements add to the log *)

Lemma models_of_app (l1 l2 : list event) :
  models_of (l1 ++ l2) = models_of l1 ++ models_of l2.
Proof. unfold models_of. apply flat_map_app. Qed.

Lemma page_of_app (l1 l2 : list event) :
  page_of (l1 ++ l2) = page_of l1 ++ page_of l2.
Proof. unfold page_of. apply filter_app. Qed.

Lemma signals_of_app (l1 l2 : list event) :
  signals_of (l1 ++ l2) = signals_of l1 ++ signals_of l2.
Proof. unfold signals_of. apply flat_map_app. Qed.

Section Adds.
Context {E : Externals}.

Lemma adds_weaken {A} (m : M A) (P Q : result A -> list event -> Prop) :
  adds m P -> (forall r evs, P r evs -> Q r evs) -> adds m Q.
Proof.
  intros Hm HPQ st. destruct (Hm st) as (evs & Hlog & HP).
  exists evs. auto.
Qed.

Lemma adds_ret {A} (a : A) (Q : result A -> list event -> Prop) :
  Q (Ok a) [] -> adds (ret a) Q.
Proof. intros HQ st. exists []. cbn. now rewrite app_nil_r. Qed.

Lemma adds_lift {A} (r : result A) (Q : result A -> list event -> Prop) :
  Q r [] -> adds (lift r) Q.
Proof. intros HQ st. exists []. cbn. now rewrite app_nil_r. Qed.

Lemma adds_emit (ev : event) (Q : result unit -> list event -> Prop) :
  Q (Ok tt) [ev] -> adds (emit ev) Q.
Proof. intros HQ st. exists [ev]. cbn. auto. Qed.

(** Sequence: what the second statement adds comes after what the first
    one added; a first statement that raises ends the sequence. *)
Lemma adds_bind {A B} (m : M A) (k : A -> M B)
    (P : result A -> list event -> Prop) (R : result B -> list event -> Prop) :
  adds m P ->
  (forall a e1, P (Ok a) e1 -> adds (k a) (fun r e2 => R r (e1 ++ e2))) ->
  (forall e e1, P (Raise e) e1 -> R (Raise e) e1) ->
  adds (bind m k) R.
Proof.
  intros Hm Hk Hraise st. unfold bind.
  destruct (Hm st) as (e1 & Hlog1 & HP).
  destruct (m st) as [[a | e] st1]; cbn [fst snd] in *.
  - destruct (Hk a e1 HP st1) as (e2 & Hlog2 & HR).
    exists (e1 ++ e2). rewrite Hlog2, Hlog1, app_assoc. auto.
  - exists e1. auto.
Qed.

(** The same with what was added before, [acc], in the account. *)
Lemma adds_stage {A B} (m : M A) (k : A -> M B)
    (I : result A -> list event -> Prop) (J : result B -> list event -> Prop)
    (acc : list event) :
  adds m (fun r e => I r (acc ++ e)) ->
  (forall a acc', I (Ok a) acc' -> adds (k a) (fun r e => J r (acc' ++ e))) ->
  (forall e acc', I (Raise e) acc' -> J (Raise e) acc') ->
  adds (bind m k) (fun r e => J r (acc ++ e)).
Proof.
  intros Hm Hk Hraise.
  apply (adds_bind _ _ (fun r e => I r (acc ++ e))); [exact Hm | |].
  - intros a e1 HI. apply (adds_weaken _ _ _ (Hk a _ HI)).
    intros r evs HJ. now rewrite app_assoc.
  - intros e e1 HI. now apply Hraise.
Qed.

Lemma adds_bind_lift {A B} (r : result A) (k : A -> M B)
    (R : result B -> list event -> Prop) :
  (forall a, r = Ok a -> adds (k a) R) ->
  (forall e, r = Raise e -> R (Raise e) []) ->
  adds (bind (lift r) k) R.
Proof.
  intros Hk Hraise.
  apply (adds_bind _ _ (fun r' evs => r' = r /\ evs = [])).
  - now apply adds_lift.
  - intros a e1 [Ha ->]. now apply Hk.
  - intros e e1 [He ->]. now apply Hraise.
Qed.

Lemma adds_bind_emit {B} (ev : event) (k : unit -> M B)
    (R : result B -> list event -> Prop) :
  adds (k tt) (fun r e2 => R r (ev :: e2)) ->
  adds (bind (emit ev) k) R.
Proof.
  intros Hk.
  apply (adds_bind _ _ (fun r' evs => r' = Ok tt /\ evs = [ev])).
  - now apply adds_emit.
  - intros [] e1 [_ ->]. exact Hk.
  - intros e e1 [He _]. discriminate.
Qed.

Lemma adds_try_except {A} (body handler : M A)
    (P R : result A -> list event -> Prop) :
  adds body P ->
  (forall a e1, P (Ok a) e1 -> R (Ok a) e1) ->
  (forall e e1, P (Raise e) e1 -> adds handler (fun r e2 => R r (e1 ++ e2))) ->
  adds (try_except body handler) R.
Proof.
  intros Hb Hok Hh st. unfold try_except.
  destruct (Hb st) as (e1 & Hlog1 & HP).
  destruct (body st) as [[a | e] st1]; cbn [fst snd] in *.
  - exists e1. auto.
  - destruct (Hh e e1 HP st1) as (e2 & Hlog2 & HR).
    exists (e1 ++ e2). rewrite Hlog2, Hlog1, app_assoc. auto.
Qed.

(** *** The searches *)

Lemma page_requests_quiet (params : list (string * pyval)) (ps : list Z)
    (outs : list (result (option (list movie)))) :
  models_of (page_requests params ps outs) = [] /\
  page_of (page_requests params ps outs) = [] /\
  signals_of (page_requests params ps outs) = [] /\
  (List.length (requests_of (page_requests params ps outs)) <= List.length ps)%nat.
Proof.
  rewrite requests_of_page_requests, length_map, length_combine.
  unfold page_requests.
  repeat split; try lia;
    induction (combine ps outs) as [|po l IH]; try reflexivity; exact IH.
Qed.

Lemma discover_call_adds (s : stage) (a : call_args) :
  adds (discover_call s a) (called s a).
Proof.
  intros st. unfold discover_call.
  pose proof (discover_movies_run E (a_genres a) (a_year_start a) (a_year_end a)
                (a_min_score a) (a_certification a) (a_min_runtime a)
                (a_max_runtime a) (a_include_adult a) st) as H.
  destruct (discover_movies _ _ _ _ _ _ _ _ st) as [r st1]. cbn [fst snd log] in *.
  destruct (rbind (py_iter (a_genres a)) (resolve_genres get_genre_ids))
    as [ids | e].
  - destruct H as (outs & -> & _).
    destruct (page_requests_quiet (base_params ids (a_min_score a)
                (a_certification a) (a_min_runtime a) (a_max_runtime a)
                (a_include_adult a)) pages outs) as (Hm & Hp & Hs & Hr).
    eexists. rewrite <- app_assoc. split; [reflexivity|]. unfold called.
    rewrite calls_of_app, models_of_app, page_of_app, signals_of_app,
      requests_of_app, calls_of_page_requests, Hm, Hp, Hs.
    cbn. rewrite length_app. cbn in *. repeat split; lia.
  - injection H as -> ->. exists [Discover s a (Raise e)].
    repeat split; cbn; lia.
Qed.

Lemma final_outcome_snoc (calls : list call) (c : call) :
  final_outcome (calls ++ [c]) = Some (call_outcome c).
Proof. unfold final_outcome. now rewrite rev_unit. Qed.

Lemma counted_mono (n n' : nat) (evs : list event) :
  (n <= n')%nat -> counted n evs -> counted n' evs.
Proof. unfold counted. intros Hn (Hm & Hp & Hc & Hr). repeat split; auto; lia. Qed.

Lemma searched_mono (n n' : nat) (r : result (list movie)) (evs : list event) :
  (n <= n')%nat -> searched n r evs -> searched n' r evs.
Proof. intros Hn [Hc Hr]. split; [now apply (counted_mono n) | exact Hr]. Qed.

Lemma counted_info (n : nat) (acc : list event) (msg : string) :
  counted n acc -> counted n (acc ++ [StInfo msg]).
Proof.
  unfold counted. intros (Hm & Hp & Hc & Hr).
  rewrite models_of_app, page_of_app, calls_of_app, requests_of_app.
  cbn. rewrite !app_nil_r. repeat split; auto.
  apply Forall_app. split; [exact Hp|]. repeat constructor. now exists msg.
Qed.

Lemma searched_raise (n : nat) (e : exn) (acc : list event) :
  counted n acc -> searched n (Raise e) acc.
Proof. intros Hc. split; [exact Hc | discriminate]. Qed.

(** One more search after what was added before. *)
Lemma discover_call_searched (n : nat) (s : stage) (a : call_args)
    (acc : list event) :
  counted n acc ->
  adds (discover_call s a) (fun r e => searched (S n) r (acc ++ e)).
Proof.
  intros (Hm & Hp & Hc & Hr).
  apply (adds_weaken _ _ _ (discover_call_adds s a)).
  intros r evs (Hcalls & Hmod & Hpage & _ & Hreq). unfold searched, counted.
  rewrite models_of_app, page_of_app, calls_of_app, requests_of_app,
    Hcalls, Hmod, Hpage, !app_nil_r, !length_app.
  cbn [List.length]. repeat split; auto; try lia.
  intros l ->. now rewrite final_outcome_snoc.
Qed.

(** A message of the chain, then the rest. *)
Lemma info_then {A} (msg : string) (m : M A)
    (Q : result A -> list event -> Prop) (acc : list event) :
  adds m (fun r e => Q r ((acc ++ [StInfo msg]) ++ e)) ->
  adds (bind (emit (StInfo msg)) (fun _ => m)) (fun r e => Q r (acc ++ e)).
Proof.
  intros Hm. apply adds_bind_emit.
  apply (adds_weaken _ _ _ Hm). intros r evs HQ.
  now rewrite <- app_assoc in HQ.
Qed.

(** The chain of lines 170-215, on any variables and any [parsed]: at most
    five searches of at most five requests each, nothing on the page but
    the messages of the chain, and the list returned is the one the last
    search returned. *)
Lemma recommend_handler_searched (v : vars) (parsed : option pyval)
    (include_adult : pyval) :
  adds (recommend_handler v parsed include_adult) (searched 5).
Proof.
  unfold recommend_handler.
  assert (Hnil : counted 0 []) by (repeat split; cbn; auto).
  apply adds_bind_lift; [intros cert _ | intros e _; now apply searched_raise,
                                              (counted_mono 0); [lia|]].
  apply (adds_weaken _ (fun r e => searched 5 r ([] ++ e))); [|auto].
  apply (adds_stage _ _ (searched 1));
    [now apply discover_call_searched | | intros e acc [Hc _];
     now apply searched_raise, (counted_mono 1); [lia|]].
  intros movies1 acc1 [Hc1 Hr1].
  (* Fallback 1 *)
  apply (adds_stage _ _ (searched 2));
    [ | | intros e acc [Hc _]; now apply searched_raise, (counted_mono 2); [lia|]].
  { destruct (no_movies movies1).
    - apply info_then.
      apply adds_bind_lift;
        [intros c1 _ | intros e _; rewrite app_nil_r;
         now apply searched_raise, (counted_mono 1); [lia|]; apply counted_info].
      now apply discover_call_searched, (counted_mono 1); [lia|]; apply counted_info.
    - apply adds_ret. rewrite app_nil_r. apply (searched_mono 1); [lia|]. now split. }
  intros movies2 acc2 [Hc2 Hr2].
  (* Fallback 2 *)
  apply (adds_stage _ _ (searched 3));
    [ | | intros e acc [Hc _]; now apply searched_raise, (counted_mono 3); [lia|]].
  { destruct (no_movies movies2).
    - apply info_then.
      apply adds_bind_lift;
        [intros c2 _ | intros e _; rewrite app_nil_r;
         now apply searched_raise, (counted_mono 2); [lia|]; apply counted_info].
      now apply discover_call_searched, counted_info.
    - apply adds_ret. rewrite app_nil_r. apply (searched_mono 2); [lia|]. now split. }
  intros movies3 acc3 [Hc3 Hr3].
  (* Fallback 3 *)
  apply (adds_stage _ _ (searched 4));
    [ | | intros e acc [Hc _]; now apply searched_raise, (counted_mono 4); [lia|]].
  { destruct (no_movies movies3).
    - apply adds_bind_lift;
        [intros c3 _ | intros e _; rewrite app_nil_r;
         now apply searched_raise, (counted_mono 3); [lia|]].
      destruct (truthy c3).
      + apply info_then. now apply discover_call_searched, counted_info.
      + apply adds_ret. rewrite app_nil_r. apply (searched_mono 3); [lia|]. now split.
    - apply adds_ret. rewrite app_nil_r. apply (searched_mono 3); [lia|]. now split. }
  intros movies4 acc4 [Hc4 Hr4].
  (* Fallback 4 *)
  apply (adds_stage _ _ (searched 5)); [ | | auto].
  { destruct (no_movies movies4 && truthy (v_genres v)).
    - apply info_then.
      apply adds_bind_lift;
        [intros g _ | intros e _; rewrite app_nil_r;
         now apply searched_raise, (counted_mono 4); [lia|]; apply counted_info].
      now apply discover_call_searched, counted_info.
    - apply adds_ret. rewrite app_nil_r. apply (searched_mono 4); [lia|]. now split. }
  intros movies5 acc5 H5. apply adds_ret. now rewrite app_nil_r.
Qed.
End Adds.

(** *** The interpreter and the whole run *)

Section Run.
Context {E : Externals}.

Lemma gpt_parse_prompt_adds (q : string) :
  adds (gpt_parse_prompt q)
       (fun _ evs => models_of evs = [q] /\ nothing_searched evs).
Proof.
  intros st.
  unfold gpt_parse_prompt, bind, bedrock_invoke_model, lift, try_except, emit, ret,
    nothing_searched.
  destruct (invoke_model q (world st)) as [[body | e] w]; cbn [fst snd log].
  - destruct (json_loads body) as [res | e]; cbn [fst snd log].
    + destruct (parse_model_result res) as [p | e]; cbn [fst snd log].
      * exists [Model q]. repeat split; auto.
      * exists [Model q; StError parse_error_msg].
        rewrite <- app_assoc. repeat split; auto.
    + exists [Model q]. repeat split; auto.
  - exists [Model q]. repeat split; auto.
Qed.

Lemma nothing_searched_notices (evs : list event) :
  nothing_searched evs -> Forall notice (page_of evs).
Proof.
  intros (_ & _ & [-> | ->]); repeat constructor.
Qed.

Lemma counted_notices (n : nat) (evs : list event) :
  counted n evs -> Forall notice (page_of evs).
Proof.
  intros (_ & Hp & _). apply (Forall_impl _ (P := fun ev => exists msg, ev = StInfo msg));
    [|exact Hp].
  intros ev [msg ->]. exact I.
Qed.

(** Lines 156-168: interpreting the query and merging sends no search. *)
Lemma interpret_adds (ui : page_input) :
  adds (if truthy (PStr (ui_query ui)) then
          parsed <- gpt_parse_prompt (ui_query ui) ;;
          v <- lift (merge_parsed (ui_decade ui) (manual_vars ui) parsed) ;;
          ret (Some parsed, v)
        else ret (None, manual_vars ui))
       (fun _ evs =>
          models_of evs = (if truthy (PStr (ui_query ui)) then [ui_query ui] else []) /\
          nothing_searched evs).
Proof.
  destruct (truthy (PStr (ui_query ui))).
  - apply (adds_bind _ _ _ _ (gpt_parse_prompt_adds (ui_query ui))); [|auto].
    intros parsed e1 H1.
    apply adds_bind_lift; [intros v _; apply adds_ret | intros e _];
      now rewrite app_nil_r.
  - apply adds_ret. unfold nothing_searched. cbn. auto.
Qed.

(** One run of the script, in full. *)
Lemma script_adds (ui : page_input) :
  adds (script ui)
       (fun r evs =>
          models_of evs = (if truthy (PStr (ui_query ui)) then [ui_query ui] else []) /\
          (List.length (calls_of evs) <= 5)%nat /\
          (List.length (requests_of evs) <= 5 * List.length (calls_of evs))%nat /\
          (ui_button ui = false -> nothing_searched evs) /\
          match r with
          | Ok _ =>
              if ui_button ui then
                exists pre l,
                  Forall notice pre /\
                  final_outcome (calls_of evs) = Some (Ok l) /\
                  page_of evs = pre ++ [verdict l]
              else Forall notice (page_of evs)
          | Raise _ => Forall notice (page_of evs)
          end).
Proof.
  unfold script.
  apply (adds_bind _ _ _ _ (interpret_adds ui)).
  2:{ intros e e1 (Hm & Hs). pose proof (nothing_searched_notices _ Hs) as Hn.
      pose proof Hs as (Hc & Hr & _). rewrite Hm, Hc, Hr. cbn.
      split; [reflexivity|]. split; [lia|]. split; [lia|]. now split. }
  intros bound e1 (Hm1 & Hs1). pose proof (nothing_searched_notices _ Hs1) as Hn1.
  destruct (ui_button ui).
  - destruct Hs1 as (Hc1 & Hr1 & _).
    apply (adds_bind _ _ _ _
             (recommend_handler_searched (snd bound) (fst bound)
                                         (PBool (ui_include_adult ui)))).
    + intros movies e2 [Hcount Hlast].
      pose proof (counted_notices _ _ Hcount) as Hn2.
      destruct Hcount as (Hm2 & _ & Hc2 & Hr2).
      assert (Hv : page_of [verdict movies] = [verdict movies])
        by (unfold verdict; now destruct movies).
      assert (Hvm : models_of [verdict movies] = [] /\ calls_of [verdict movies] = [] /\
                    requests_of [verdict movies] = [])
        by (unfold verdict; now destruct movies).
      destruct Hvm as (Hvm & Hvc & Hvr).
      apply (adds_weaken _ (fun r evs => r = Ok tt /\ evs = [verdict movies])).
      { unfold verdict. destruct (no_movies movies); now apply adds_emit. }
      intros r evs [-> ->].
      rewrite !models_of_app, !calls_of_app, !requests_of_app, !page_of_app,
        Hm1, Hc1, Hr1, Hm2, Hvm, Hvc, Hvr, Hv, !app_nil_r.
      cbn [app]. repeat split; auto; try discriminate.
      exists (page_of e1 ++ page_of e2), movies. rewrite <- app_assoc.
      repeat split; auto. apply Forall_app. auto.
    + intros e e2 [Hcount _].
      pose proof (counted_notices _ _ Hcount) as Hn2.
      destruct Hcount as (Hm2 & _ & Hc2 & Hr2).
      rewrite !models_of_app, !calls_of_app, !requests_of_app, !page_of_app,
        Hm1, Hc1, Hr1, Hm2, !app_nil_r.
      cbn [app]. repeat split; auto; try discriminate.
      apply Forall_app. auto.
  - apply adds_ret. rewrite app_nil_r.
    pose proof Hs1 as (Hc1 & Hr1 & _). rewrite Hm1, Hc1, Hr1. cbn.
    split; [reflexivity|]. split; [lia|]. split; [lia|]. now split.
Qed.
End Run.

(** *** Messages and searches of the chain *)

Section Announce.
Context {E : Externals}.

Lemma announced_search (acc : list event) (s : stage) (a : call_args) :
  announced acc ->
  adds (discover_call s a)
       (fun _ e => announced ((acc ++ match stage_message s with
                                      | Some msg => [StInfo msg]
                                      | None => []
                                      end) ++ e)).
Proof.
  unfold announced. intros Hacc.
  apply (adds_weaken _ _ _ (discover_call_adds s a)).
  intros r e (Hc & _ & _ & Hs & _).
  rewrite !signals_of_app, !calls_of_app, Hc, Hs, Hacc, !map_app, !flat_map_app.
  cbn [map flat_map call_stage]. rewrite !app_nil_r. unfold announce.
  destruct (stage_message s); cbn; now rewrite ?app_nil_r, <- ?app_assoc.
Qed.

Lemma recommend_handler_announces (v : vars) (parsed : option pyval)
    (include_adult : pyval) :
  adds (recommend_handler v parsed include_adult)
       (fun r evs =>
          signals_of evs = flat_map announce (map call_stage (calls_of evs)) \/
          ((exists e, r = Raise e) /\
           signals_of evs = flat_map announce (map call_stage (calls_of evs))
                            ++ [inl "Trying again with only one genre..."])).
Proof.
  unfold recommend_handler.
  set (J := fun (r : result (list movie)) (evs : list event) =>
              announced evs \/
              ((exists e, r = Raise e) /\
               signals_of evs = flat_map announce (map call_stage (calls_of evs))
                                ++ [inl "Trying again with only one genre..."])).
  apply (adds_weaken _ J); [|intros r evs H; exact H].
  assert (Hnil : announced []) by reflexivity.
  assert (Hret : forall (movies : list movie) acc,
            announced acc -> adds (ret movies) (fun _ e => announced (acc ++ e)))
    by (intros movies acc Hacc; apply adds_ret; now rewrite app_nil_r).
  apply adds_bind_lift; [intros cert Hcert | intros e _; now left].
  rewrite !Hcert.
  apply (adds_weaken _ (fun r e => J r ([] ++ e))); [|auto].
  apply (adds_stage _ _ (fun _ acc => announced acc));
    [exact (announced_search [] Full _ Hnil) | | intros e acc Hacc; now left].
  intros movies1 acc1 H1.
  (* Fallback 1 *)
  apply (adds_stage _ _ (fun _ acc => announced acc));
    [ | | intros e acc Hacc; now left].
  { destruct (no_movies movies1); [|now apply Hret].
    apply info_then.
    apply adds_bind_lift; [intros c [= <-] | discriminate].
    exact (announced_search acc1 DropScore _ H1). }
  intros movies2 acc2 H2.
  (* Fallback 2 *)
  apply (adds_stage _ _ (fun _ acc => announced acc));
    [ | | intros e acc Hacc; now left].
  { destruct (no_movies movies2); [|now apply Hret].
    apply info_then.
    apply adds_bind_lift; [intros c [= <-] | discriminate].
    exact (announced_search acc2 DropRuntime _ H2). }
  intros movies3 acc3 H3.
  (* Fallback 3 *)
  apply (adds_stage _ _ (fun _ acc => announced acc));
    [ | | intros e acc Hacc; now left].
  { destruct (no_movies movies3); [|now apply Hret].
    apply adds_bind_lift; [intros c [= <-] | discriminate].
    destruct (truthy cert); [|now apply Hret].
    apply info_then.
    exact (announced_search acc3 DropCertification _ H3). }
  intros movies4 acc4 H4.
  (* Fallback 4 *)
  apply (adds_stage _ _ J); [ | | auto].
  { destruct (no_movies movies4 && truthy (v_genres v)).
    - apply info_then.
      apply adds_bind_lift.
      + intros g _.
        apply (adds_weaken _ _ _ (announced_search acc4 SingleGenre _ H4)).
        intros r e He. now left.
      + intros e _. right. split; [now exists e|].
        rewrite app_nil_r, signals_of_app, calls_of_app, H4. cbn.
        now rewrite app_nil_r.
    - apply (adds_weaken _ _ _ (Hret movies4 acc4 H4)). intros r e He. now left. }
  intros movies5 acc5 H5. apply adds_ret. now rewrite app_nil_r.
Qed.
End Announce.

(** ** Runs of the script *)

(** X10. One run of the script asks the model once when there is a query
    and not at all when there is none, calls [discover_movies] at most five
    times and sends at most twenty-five search requests, whatever the model
    and the provider answer. *)
Theorem script_effort_is_bounded :
  forall (E : Externals) (ui : page_input) (st : state),
    exists evs : list event,
      log (snd (script ui st)) = log st ++ evs /\
      models_of evs = (if String.eqb (ui_query ui) "" then [] else [ui_query ui]) /\
      (List.length (calls_of evs) <= 5)%nat /\
      (List.length (requests_of evs) <= 25)%nat.
Proof.
  intros E ui st.
  destruct (script_adds ui st) as (evs & Hlog & Hm & Hc & Hr & _).
  exists evs. split; [exact Hlog|]. split; [|lia].
  rewrite Hm. cbn. now destruct (String.eqb (ui_query ui) "").
Qed.

(** X11. Without the button no search is made: a run calls
    [discover_movies] and the provider not once and shows nothing, the
    parse error of the interpreter apart. *)
Theorem without_the_button_nothing_is_searched :
  forall (E : Externals) (ui : page_input),
    ui_button ui = false ->
    forall st : state,
      exists evs : list event,
        log (snd (script ui st)) = log st ++ evs /\
        calls_of evs = [] /\
        requests_of evs = [] /\
        (page_of evs = [] \/ page_of evs = [StError parse_error_msg]).
Proof.
  intros E ui Hb st.
  destruct (script_adds ui st) as (evs & Hlog & _ & _ & _ & Hs & _).
  exists evs. split; [exact Hlog | exact (Hs Hb)].
Qed.

Lemma without_the_button_example :
  ui_button (visit "something funny" false) = false /\
  forall st : state (E := quiet_world),
    exists evs : list event,
      log (snd (script (visit "something funny" false) st)) = log st ++ evs /\
      calls_of evs = [] /\
      requests_of evs = [] /\
      (page_of evs = [] \/ page_of evs = [StError parse_error_msg]).
Proof.
  split; [reflexivity|].
  apply (without_the_button_nothing_is_searched quiet_world
           (visit "something funny" false)).
  reflexivity.
Defined.



(** X13. In the fallback chain every search after the first comes right
    after the message that announces it, and every message is followed by
    its search; only the message of the last fallback can stand alone, when
    taking the first genre raises. *)
Theorem messages_announce_the_searches :
  forall (E : Externals) (v : vars) (parsed : option pyval)
         (include_adult : pyval) (st : state),
    let run := recommend_handler v parsed include_adult st in
    exists evs : list event,
      log (snd run) = log st ++ evs /\
      (signals_of evs = flat_map announce (map call_stage (calls_of evs)) \/
       ((exists e, fst run = Raise e) /\
        signals_of evs = flat_map announce (map call_stage (calls_of evs))
                         ++ [inl "Trying again with only one genre..."])).
Proof.
  intros E v parsed include_adult st run.
  exact (recommend_handler_announces v parsed include_adult st).
Qed.

(** ** An answer that is no object *)

Lemma merge_parsed_not_a_dict {E : Externals} (decade : string) (v : vars)
    (parsed : pyval) :
  (forall d, parsed <> PDict d) ->
  merge_parsed decade v parsed = Raise AttributeError.
Proof.
  intros Hd. unfold merge_parsed.
  destruct parsed; try solve [exfalso; eapply Hd; reflexivity];
    cbn [py_get]; destruct (negb (truthy (v_genres v)));
    destruct (String.eqb decade "Any"); destruct (negb (truthy (v_min_score v)));
    reflexivity.
Qed.

(** X14. When the model's text is JSON but no object (an array, a number,
    a string, null), the script raises AttributeError right after the
    interpretation: nothing is merged, searched or shown, with or without
    the button. *)
Theorem script_raises_on_an_answer_that_is_no_object :
  forall (E : Externals) (ui : page_input) (parsed : pyval) (st : state),
    ui_query ui <> "" ->
    fst (gpt_parse_prompt (ui_query ui) st) = Ok parsed ->
    (forall d, parsed <> PDict d) ->
    script ui st = (Raise AttributeError, snd (gpt_parse_prompt (ui_query ui) st)).
Proof.
  intros E ui parsed st Hq Hrun Hd. unfold script, bind.
  assert (Ht : truthy (PStr (ui_query ui)) = true).
  { cbn. destruct (String.eqb_spec (ui_query ui) ""); [contradiction | reflexivity]. }
  rewrite Ht.
  destruct (gpt_parse_prompt (ui_query ui) st) as [r st1]. cbn [fst snd] in *.
  subst r. unfold lift.
  now rewrite (merge_parsed_not_a_dict _ _ _ Hd).
Qed.

Lemma script_raises_on_an_array :
  script (E := array_world) (visit "two films" true) (start (E := array_world) tt)
  = (Raise AttributeError, state_of (E := array_world) tt [Model "two films"]).
Proof.
  apply (script_raises_on_an_answer_that_is_no_object array_world
           (visit "two films" true) (PList [PInt 1; PInt 2])
           (start (E := array_world) tt)).
  - discriminate.
  - vm_compute. reflexivity.
  - discriminate.
Defined.

(** ** Genres that cannot be looked up *)

Lemma resolve_genres_unhashable (m : list (string * Z)) (gs : list pyval) :
  existsb unhashable gs = true -> resolve_genres m gs = Raise TypeError.
Proof.
  induction gs as [|g gs IH]; [discriminate|].
  cbn [existsb resolve_genres]. intros H. apply Bool.orb_true_iff in H.
  destruct (unhashable g) eqn:Hg.
  - destruct g; try discriminate; reflexivity.
  - destruct H as [H | H]; [discriminate|]. rewrite (IH H).
    destruct g; try discriminate; reflexivity.
Qed.

Lemma resolve_genres_hashable (m : list (string * Z)) (gs : list pyval) :
  existsb unhashable gs = false -> exists ids, resolve_genres m gs = Ok ids.
Proof.
  induction gs as [|g gs IH]; [now exists []|].
  cbn [existsb resolve_genres]. intros H. apply Bool.orb_false_iff in H.
  destruct H as [Hg H]. destruct (IH H) as [ids ->].
  destruct g; try discriminate; cbn; try (now eexists).
  unfold dict_mem. destruct (dict_find String.eqb s m); now eexists.
Qed.

Lemma strings_hashable {A} (f : A -> string) (l : list A) :
  existsb unhashable (map (fun x => PStr (f x)) l) = false.
Proof. induction l; [reflexivity | exact IHl]. Qed.

(** X15. [discover_movies] looks its genres up before it sends anything:
    on genres that cannot be iterated (None, a number, a boolean) or a list
    holding a list or a dict it raises TypeError and leaves the world as it
    was; on all other genres it sends at least the request for page 1. *)
Theorem genres_are_checked_before_any_request :
  forall (E : Externals) (genres ys ye ms c mr xr ia : pyval) (st : state),
    if bad_genres genres
    then discover_movies genres ys ye ms c mr xr ia st = (Raise TypeError, st)
    else exists r rest,
           requests_of (log (snd (discover_movies genres ys ye ms c mr xr ia st)))
           = requests_of (log st) ++ r :: rest.
Proof.
  intros E genres ys ye ms c mr xr ia st.
  pose proof (discover_movies_run E genres ys ye ms c mr xr ia st) as H.
  destruct (bad_genres genres) eqn:Hbad.
  - assert (Hr : rbind (py_iter genres) (resolve_genres get_genre_ids) = Raise TypeError).
    { destruct genres; try discriminate; try reflexivity.
      cbn. now apply resolve_genres_unhashable. }
    now rewrite Hr in H.
  - assert (Hr : exists ids,
               rbind (py_iter genres) (resolve_genres get_genre_ids) = Ok ids).
    { destruct genres; try discriminate; cbn.
      - apply resolve_genres_hashable.
        apply (strings_hashable (fun ch => String ch EmptyString)).
      - now apply resolve_genres_hashable.
      - apply resolve_genres_hashable. apply (strings_hashable fst). }
    destruct Hr as [ids Hr]. rewrite Hr in H.
    destruct H as (outs & -> & Houts).
    rewrite requests_of_app, requests_of_page_requests.
    assert (Hne : outs <> []).
    { destruct Houts as [(payloads & e & -> & _) | (payloads & -> & Hlen & _)].
      - now destruct payloads.
      - destruct payloads; [discriminate Hlen | discriminate]. }
    destruct outs as [|o outs]; [contradiction|]. cbn. eauto.
Qed.
